(** * The Go declaration formatter of internal/btf (format.go)

    A shallow embedding of [GoFormatter] and of its methods, and the
    properties of the formatter stated over it.

    Conventions of the embedding.
    - A [uint32] is a [Z]; every operation that can wrap in Go is written
      with [uint32], the reduction modulo 2^32.
    - [strings.Builder] is a [string]; writing appends.
    - A method of [*GoFormatter] is a function from the formatter to an
      outcome and the formatter after the call (the buffer keeps what was
      written before a failure, as in Go).
    - A Go [error] built with [fmt.Errorf] keeps its shape: the constructors
      of [error] are the format strings of format.go, with their arguments.
    - A run-time panic is an outcome of its own, [Panic]. *)

From Stdlib Require Import ZArith String List Lia DecimalString.
From stdpp Require Import base gmap.

Import ListNotations.
Local Open Scope string_scope.
Local Open Scope Z_scope.

(** The package. *)
Module btf.

(** ** Machine integers and [%d] *)

Definition uint32 (z : Z) : Z := z mod 2 ^ 32.

(** [fmt]'s [%d] verb on an integer. *)
Definition fmtd (z : Z) : string := NilZero.string_of_int (Z.to_int z).

(** ** The type graph

    The declarations of the type nodes are not in format.go. *)

(** Modelled from the spec: the address of a type node ("types are
    reference-identity entities ... the name table is keyed on this
    identity"). Go compares the keys of [map[Type]string] by pointer. *)
Definition loc := positive.
Bind Scope positive_scope with loc.

(** Modelled from the spec: the encoding of an Integer ("signedness flag,
    boolean flag, character flag"), read through [IsSigned], [IsChar] and
    [IsBool]. *)
Record IntEncoding : Set := mkIntEncoding
  { IsSigned : bool; IsChar : bool; IsBool : bool }.

(** Modelled from the spec: the linkage of a section variable
    ("Static | Extern | Global"). *)
Inductive VarLinkage : Set := StaticVar | GlobalVar | ExternVar.

(** Modelled from the spec: one value of an Enumeration ("(name, signed
    32-bit value) pairs"). *)
Record EnumValue : Set := mkEnumValue { ev_Name : string; ev_Value : Z }.

(** Modelled from the spec: the type nodes of section 3. Each node starts
    with its address. [Pointer], [Fwd] and [Func] stand for the kinds the
    formatter does not render. The fields are those format.go reads. *)
Inductive Typ : Type :=
| Int (p : loc) (Size : Z) (Encoding : IntEncoding)
| Pointer (p : loc) (Target : Typ)
| Array (p : loc) (Type_ : Typ) (Nelems : Z)
| Struct (p : loc) (Size : Z) (Members : list Member)
| Union (p : loc) (Size : Z) (Members : list Member)
| Enum (p : loc) (Values : list EnumValue)
| Fwd (p : loc)
| Typedef (p : loc) (Type_ : Typ)
| Volatile (p : loc) (Type_ : Typ)
| Const (p : loc) (Type_ : Typ)
| Restrict (p : loc) (Type_ : Typ)
| Func (p : loc) (Type_ : Typ)
| Var (p : loc) (Name : string) (Type_ : Typ) (Linkage : VarLinkage)
| Datasec (p : loc) (Size : Z) (Vars : list VarSecinfo)
with Member : Type :=
| mkMember (Name : string) (Type_ : Typ) (OffsetBits : Z) (BitfieldSize : Z)
with VarSecinfo : Type :=
| mkVarSecinfo (Type_ : Typ) (Offset : Z) (Size : Z).

Definition addr (typ : Typ) : loc :=
  match typ with
  | Int p _ _ | Pointer p _ | Array p _ _ | Struct p _ _ | Union p _ _
  | Enum p _ | Fwd p | Typedef p _ | Volatile p _ | Const p _
  | Restrict p _ | Func p _ | Var p _ _ _ | Datasec p _ _ => p
  end.

Module Member.
Definition Name (m : Member) : string := let (n, _, _, _) := m in n.
Definition Type_ (m : Member) : Typ := let (_, t, _, _) := m in t.
Definition OffsetBits (m : Member) : Z := let (_, _, o, _) := m in o.
Definition BitfieldSize (m : Member) : Z := let (_, _, _, b) := m in b.
End Member.

Module VarSecinfo.
Definition Type_ (vsi : VarSecinfo) : Typ := let (t, _, _) := vsi in t.
Definition Offset (vsi : VarSecinfo) : Z := let (_, o, _) := vsi in o.
Definition Size (vsi : VarSecinfo) : Z := let (_, _, s) := vsi in s.
End VarSecinfo.

(** ** Errors and panics *)

(** The errors of format.go. A type printed with [%s] is kept as the
    address of the node. [errInType], [errInField] and [errInVariable]
    wrap their last argument with [%w]. *)
Inductive error : Type :=
| errNestedTooDeep                          (* errors.New("nested too deep") *)
| ErrNotSupported                           (* the sentinel of the package *)
| errExceededTypeDepth                      (* skipQualifiers ran out of its bound *)
| errUnsized (typ : loc)                    (* a failure of Sizeof *)
| errNeedName (typ : loc)                   (* "need a name for type %s" *)
| errTypeNotSupported (typ : loc) (err : error)  (* "type %s: %w" *)
| errInType (typ : loc) (err : error)       (* "%s: %w" *)
| errAnonymousField (i : nat)               (* "field %d: anonymous fields are not supported" *)
| errBitfield (i : nat)                     (* "field %d: bitfields are not supported" *)
| errUnsupportedOffset (i : nat) (OffsetBits : Z)  (* "field %d: unsupported offset %d" *)
| errInField (i : nat) (err : error)        (* "field %d: %w" *)
| errEmptyName (i : nat)                    (* "variable %d: empty name" *)
| errInVariable (i : nat) (err : error).    (* "variable %d: %w" *)

(** [errors.Unwrap]: the error wrapped with [%w], if any. *)
Definition Unwrap (err : error) : option error :=
  match err with
  | errTypeNotSupported _ e | errInType _ e | errInField _ e
  | errInVariable _ e => Some e
  | _ => None
  end.

(** The two sentinels, compared as [errors.Is] compares them. *)
Inductive sentinel : Set := NestedTooDeep | NotSupported.

Fixpoint Is (err : error) (target : sentinel) : bool :=
  match err, target with
  | errNestedTooDeep, NestedTooDeep => true
  | ErrNotSupported, NotSupported => true
  | errTypeNotSupported _ e, _ | errInType _ e, _
  | errInField _ e, _ | errInVariable _ e, _ => Is e target
  | _, _ => false
  end.

(** The run-time panics format.go can raise. *)
Inductive panic : Type :=
| sliceBoundsOutOfRange (high capacity : nat)  (* s[:high] with high > cap(s) *)
| interfaceConversion (typ : loc).             (* x.( *Var) on another kind *)

(** The outcome of a call: a value, an error, a panic, or, for the
    recursion on a bound only, no outcome within the bound. *)
Inductive result (A : Type) : Type :=
| Ok (a : A)
| Err (err : error)
| Panic (p : panic)
| OutOfFuel.
Arguments Ok {A} a.
Arguments Err {A} err.
Arguments Panic {A} p.
Arguments OutOfFuel {A}.

(** ** The formatter *)

Record GoFormatter : Type := mkGoFormatter
  { w : string;
    names : gmap loc string;
    Identifier : string -> string }.

(** A method of [*GoFormatter]. *)
Definition M (A : Type) : Type := GoFormatter -> result A * GoFormatter.

#[global] Instance M_ret : MRet M := fun A a gf => (Ok a, gf).

#[global] Instance M_bind : MBind M := fun A B f m gf =>
  match m gf with
  | (Ok a, gf') => f a gf'
  | (Err e, gf') => (Err e, gf')
  | (Panic p, gf') => (Panic p, gf')
  | (OutOfFuel, gf') => (OutOfFuel, gf')
  end.

(** [return err] with a non-nil [err]. *)
Definition fail {A} (err : error) : M A := fun gf => (Err err, gf).

Definition raise {A} (p : panic) : M A := fun gf => (Panic p, gf).

(** [v, err := f(); if err != nil { return wrap(err) }] for a function of
    the package that does not touch the formatter. *)
Definition try {A} (wrap : error -> error) (r : error + A) : M A :=
  match r with
  | inl err => fail (wrap err)
  | inr a => mret a
  end.

(** [if err := m; err != nil { return wrap(err) }]. *)
Definition wrapping {A} (wrap : error -> error) (m : M A) : M A := fun gf =>
  match m gf with
  | (Err e, gf') => (Err (wrap e), gf')
  | r => r
  end.

(** The formatter after [s] is appended to its buffer. *)
Definition written (gf : GoFormatter) (s : string) : GoFormatter :=
  mkGoFormatter (w gf ++ s) (names gf) (Identifier gf).

(** [gf.w.WriteString(s)], and [fmt.Fprintf(&gf.w, ...)] once the text is
    built. *)
Definition WriteString (s : string) : M unit := fun gf => (Ok tt, written gf s).

(** [gf.w.Reset()]. *)
Definition Reset (gf : GoFormatter) : GoFormatter :=
  mkGoFormatter "" (names gf) (Identifier gf).

(** [gf.names[typ]]: the zero value, the empty string, for a missing key. *)
Definition lookup_name (typ : Typ) : M string := fun gf =>
  (Ok (default "" (names gf !! addr typ)), gf).

(** [gf.Identifier(s)]. *)
Definition identifier (s : string) : M string := fun gf =>
  (Ok (Identifier gf s), gf).

(** [NewGoFormatter]. *)
Definition NewGoFormatter (names : gmap loc string) : GoFormatter :=
  mkGoFormatter "" names (fun s => s).

(** [s[:high]] on a slice whose capacity is its length. *)
Definition slice_to {A} (high : nat) (s : list A) : M (list A) :=
  if (high <=? length s)%nat then mret (firstn high s)
  else raise (sliceBoundsOutOfRange high (length s)).

(** [gf.writePadding]. *)
Definition writePadding (bytes : Z) : M unit :=
  if 0 <? bytes then WriteString ("_ [" ++ fmtd bytes ++ "]byte; ")
  else mret tt.

(** [gf.writeIntLit]. *)
Definition writeIntLit (Size : Z) (Encoding : IntEncoding) : M unit :=
  if IsBool Encoding && (Size =? 1) then WriteString "bool"
  else
    let bits := uint32 (Size * 8) in
    if IsSigned Encoding then WriteString ("int" ++ fmtd bits)
    else WriteString ("uint" ++ fmtd bits).

Section Formatter.

(** The nesting bound. Its declaration is not in format.go. *)
Variable maxTypeDepth : Z.

(** The layout calculator. Its code is not in format.go; it returns the
    size of a type in bytes, a Go [int], or an error. *)
Variable Sizeof : Typ -> error + Z.

(** Modelled from the spec: the qualifier resolver of section 4.1
    ("repeatedly unwraps Qualifier-wrapper nodes until a non-wrapper node
    is reached. Must bound the unwrap count (reuse the same depth budget as
    nested-literal traversal ...); on exceeding the bound it fails"). A run
    looks at [maxTypeDepth + 1] nodes at most. *)
Fixpoint skipQualifiers_loop (n : nat) (result : Typ) : error + Typ :=
  match n with
  | O => inl errExceededTypeDepth
  | S n' =>
      match result with
      | Volatile _ t | Const _ t | Restrict _ t => skipQualifiers_loop n' t
      | _ => inr result
      end
  end.

Definition skipQualifiers (typ : Typ) : error + Typ :=
  skipQualifiers_loop (Z.to_nat (maxTypeDepth + 1)) typ.

(** *** The methods that call each other

    [writeType], [writeStructLit] and [writeDatasecLit] call [writeTypeLit]
    back; they are written over the function they call, and [writeTypeLit]
    ties the knot. *)
Section Open.

Variable writeTypeLit : Typ -> Z -> M unit.

(** [gf.writeType]. *)
Definition writeType_ (typ : Typ) (depth : Z) : M unit :=
  typ ← try id (skipQualifiers typ);
  name ← lookup_name typ;
  if negb (String.eqb name "") then WriteString name
  else writeTypeLit typ depth.

(** The loop of [gf.writeStructLit] from member [i] on; it returns the
    last [prevOffset]. *)
Fixpoint writeStructLit_loop (depth : Z) (i : nat) (prevOffset : Z)
    (members : list Member) : M Z :=
  match members with
  | [] => mret prevOffset
  | m :: members' =>
      if String.eqb (Member.Name m) "" then fail (errAnonymousField i)
      else if 0 <? Member.BitfieldSize m then fail (errBitfield i)
      else if negb (Member.OffsetBits m mod 8 =? 0)
      then fail (errUnsupportedOffset i (Member.OffsetBits m))
      else
        size ← try (errInField i) (Sizeof (Member.Type_ m));
        let offset := Member.OffsetBits m / 8 in
        writePadding (uint32 (offset - prevOffset));;
        let prevOffset := uint32 (offset + uint32 size) in
        id ← identifier (Member.Name m);
        WriteString (id ++ " ");;
        wrapping (errInField i) (writeType_ (Member.Type_ m) depth);;
        WriteString "; ";;
        writeStructLit_loop depth (S i) prevOffset members'
  end.

(** [gf.writeStructLit]. *)
Definition writeStructLit_ (size : Z) (members : list Member) (depth : Z)
    : M unit :=
  WriteString "struct { ";;
  prevOffset ← writeStructLit_loop depth 0 0 members;
  writePadding (uint32 (size - prevOffset));;
  WriteString "}".

(** The loop of [gf.writeDatasecLit] from entry [i] on. *)
Fixpoint writeDatasecLit_loop (depth : Z) (i : nat) (prevOffset : Z)
    (vars : list VarSecinfo) : M Z :=
  match vars with
  | [] => mret prevOffset
  | vsi :: vars' =>
      match VarSecinfo.Type_ vsi with
      | Var _ v_Name v_Type v_Linkage =>
          match v_Linkage with
          | GlobalVar =>
              if String.eqb v_Name "" then fail (errEmptyName i)
              else
                writePadding (uint32 (VarSecinfo.Offset vsi - prevOffset));;
                let prevOffset :=
                  uint32 (VarSecinfo.Offset vsi + VarSecinfo.Size vsi) in
                id ← identifier v_Name;
                WriteString (id ++ " ");;
                wrapping (errInVariable i) (writeType_ v_Type depth);;
                WriteString "; ";;
                writeDatasecLit_loop depth (S i) prevOffset vars'
          | _ => writeDatasecLit_loop depth (S i) prevOffset vars'
          end
      | other => raise (interfaceConversion (addr other))
      end
  end.

(** [gf.writeDatasecLit] on [ds], given by [ds.Size] and [ds.Vars]. *)
Definition writeDatasecLit_ (Size : Z) (Vars : list VarSecinfo) (depth : Z)
    : M unit :=
  WriteString "struct { ";;
  prevOffset ← writeDatasecLit_loop depth 0 0 Vars;
  writePadding (uint32 (Size - prevOffset));;
  WriteString "}".

(** The body of [gf.writeTypeLit]. *)
Definition writeTypeLit_body (typ : Typ) (depth : Z) : M unit :=
  let depth := depth + 1 in
  if maxTypeDepth <? depth then fail errNestedTooDeep
  else
    typ ← try id (skipQualifiers typ);
    match typ with
    | Int _ Size Encoding => writeIntLit Size Encoding
    | Enum _ _ => WriteString "int32"
    | Typedef _ Type_ =>
        wrapping (errInType (addr typ)) (writeType_ Type_ depth)
    | Array _ Type_ Nelems =>
        WriteString ("[" ++ fmtd Nelems ++ "]");;
        wrapping (errInType (addr typ)) (writeType_ Type_ depth)
    | Struct _ Size Members =>
        wrapping (errInType (addr typ)) (writeStructLit_ Size Members depth)
    | Union _ Size Members =>
        first ← slice_to 1 Members;
        wrapping (errInType (addr typ)) (writeStructLit_ Size first depth)
    | Datasec _ Size Vars =>
        wrapping (errInType (addr typ)) (writeDatasecLit_ Size Vars depth)
    | _ => fail (errTypeNotSupported (addr typ) ErrNotSupported)
    end.

End Open.

(** [gf.writeTypeLit], within [fuel] nested calls. *)
Fixpoint writeTypeLit_fuel (fuel : nat) (typ : Typ) (depth : Z) : M unit :=
  match fuel with
  | O => fun gf => (OutOfFuel, gf)
  | S fuel' => writeTypeLit_body (writeTypeLit_fuel fuel') typ depth
  end.

(** [gf.writeTypeLit]: [depth] grows by one at each nested call and a call
    beyond [maxTypeDepth] returns at once, so this many calls are enough. *)
Definition writeTypeLit (typ : Typ) (depth : Z) : M unit :=
  writeTypeLit_fuel (S (Z.to_nat (maxTypeDepth - depth))) typ depth.

Definition writeType : Typ -> Z -> M unit := writeType_ writeTypeLit.

Definition writeStructLit : Z -> list Member -> Z -> M unit :=
  writeStructLit_ writeTypeLit.

(** [gf.writeDatasecLit] on [ds], given by [ds.Size] and [ds.Vars]. *)
Definition writeDatasecLit : Z -> list VarSecinfo -> Z -> M unit :=
  writeDatasecLit_ writeTypeLit.

(** The loop over [v.Values] in [gf.writeTypeDecl]. *)
Fixpoint writeEnumValues (name : string) (Values : list EnumValue) : M unit :=
  match Values with
  | [] => mret tt
  | ev :: Values' =>
      id ← identifier (ev_Name ev);
      WriteString (name ++ id ++ " " ++ name ++ " = " ++ fmtd (ev_Value ev) ++ "; ");;
      writeEnumValues name Values'
  end.

(** [gf.writeTypeDecl]. *)
Definition writeTypeDecl (name : string) (typ : Typ) : M unit :=
  if String.eqb name "" then fail (errNeedName (addr typ))
  else
    typ ← try id (skipQualifiers typ);
    match typ with
    | Enum _ Values =>
        WriteString ("type " ++ name ++ " int32");;
        if (length Values =? 0)%nat then mret tt
        else
          WriteString "; const ( ";;
          writeEnumValues name Values;;
          WriteString ")"
    | _ =>
        WriteString ("type " ++ name ++ " ");;
        writeTypeLit typ 0
    end.

(** [gf.TypeDeclaration]: the pair it returns, or its panic, and the
    formatter after the call. *)
Definition TypeDeclaration (gf : GoFormatter) (name : string) (typ : Typ)
    : result (string * option error) * GoFormatter :=
  match writeTypeDecl name typ (Reset gf) with
  | (Ok _, gf') => (Ok (w gf', None), gf')
  | (Err err, gf') => (Ok ("", Some err), gf')
  | (Panic p, gf') => (Panic p, gf')
  | (OutOfFuel, gf') => (OutOfFuel, gf')
  end.

End Formatter.

End btf.

Import btf.

(** ** An instance of what format.go leaves open, for the examples *)

Module Example.

(** Modelled from the spec: a nesting bound ("a fixed maximum nesting
    bound"); the spec gives no number. *)
Definition maxTypeDepth : Z := 32.

(** Modelled from the spec: a layout calculator ("sizeOf(type) ->
    byteSize | fails"), with the sizes section 3 gives: the byte size of
    an Integer, of a Structure, of a Union and of a DataSection, 32 bits
    for an Enumeration, the element count times the element for an
    Array; a Typedef and a qualifier have the size of what they wrap. *)
Fixpoint Sizeof (typ : Typ) : error + Z :=
  match typ with
  | Int _ Size _ | Struct _ Size _ | Union _ Size _ | Datasec _ Size _ =>
      inr Size
  | Enum _ _ => inr 4
  | Array _ t Nelems =>
      match Sizeof t with
      | inr elem => inr (Nelems * elem)
      | inl err => inl err
      end
  | Typedef _ t | Volatile _ t | Const _ t | Restrict _ t => Sizeof t
  | other => inl (errUnsized (addr other))
  end.

Definition int32 (p : loc) : Typ := Int p 4 (mkIntEncoding true false false).

Definition declare (names : gmap loc string) (name : string) (typ : Typ)
    : result (string * option error) :=
  fst (TypeDeclaration maxTypeDepth Sizeof (NewGoFormatter names) name typ).

(** A formatter without names, and one that names the node at 5. *)
Definition plain : GoFormatter := NewGoFormatter ∅.
Definition naming : GoFormatter := NewGoFormatter {[ 5%positive := "Color" ]}.

Definition a : Member := mkMember "a" (int32 2) 0 0.

(** [b] starts at byte 2, inside [a]. *)
Definition b : Member := mkMember "b" (int32 2) 16 0.

Definition anonymous : Member := mkMember "" (int32 2) 32 0.

Definition bits : Member := mkMember "flags" (int32 2) 0 3.

Definition Color : Typ := Enum 5 [mkEnumValue "Red" 0; mkEnumValue "Blue" 1].

(** [struct { int a; int b; }] with [b] laid over the second half of
    [a], and a structure declared shorter than its only member. *)
Definition overlapping : Typ := Struct 1 8 [a; b].
Definition truncated : Typ := Struct 1 2 [a].

(** A structure with a member, and an array with elements, of the
    named Enumeration. *)
Definition paint : Typ := Struct 1 4 [mkMember "c" Color 0 0].
Definition palette : Typ := Array 3 Color 2.

Definition x : VarSecinfo := mkVarSecinfo (Var 4 "x" (int32 2) GlobalVar) 0 4.
Definition y : VarSecinfo := mkVarSecinfo (Var 6 "" (int32 2) StaticVar) 4 4.

(** An entry that holds the integer itself, not a Variable. *)
Definition stray : VarSecinfo := mkVarSecinfo (int32 2) 8 4.

(** [far] starts at byte 8, four bytes after the end of [a]. *)
Definition far : Member := mkMember "b" (int32 2) 64 0.


(** A kind the formatter has no case for. *)
Definition pointer : Typ := Pointer 9 (int32 2).

(** [[2][3]int32], on two unnamed nodes. *)
Definition matrix : list (loc * Z) := [(10%positive, 2); (11%positive, 3)].

End Example.

(** ** Vocabulary of the statements *)

(** A method that leaves the name table and the identifier policy alone. *)
Definition frames {A} (m : M A) : Prop :=
  forall gf, names (snd (m gf)) = names gf
             /\ Identifier (snd (m gf)) = Identifier gf.

(** A method that has an outcome: a value, an error or a panic. *)
Definition total {A} (m : M A) : Prop :=
  forall gf, fst (m gf) <> OutOfFuel.

(** A qualifier wrapper. *)
Definition isQualifier (typ : Typ) : bool :=
  match typ with
  | Volatile _ _ | Const _ _ | Restrict _ _ => true
  | _ => false
  end.

(** The declaration of an Enumeration as section 4.6 of the spec words it:
    the alias of [name] to the 32-bit signed integer, then, unless there
    is no value, one constant per value, named by [name] followed by the
    transformed name of the value, typed [name], assigned the integer of
    the value. *)
Definition enumConstant (policy : string -> string) (name : string)
    (ev : EnumValue) : string :=
  name ++ policy (ev_Name ev) ++ " " ++ name ++ " = " ++ fmtd (ev_Value ev) ++ "; ".

Definition enumConstants (policy : string -> string) (name : string)
    (Values : list EnumValue) : string :=
  fold_right (fun ev rest => enumConstant policy name ev ++ rest) "" Values.

Definition enumDeclaration (policy : string -> string) (name : string)
    (Values : list EnumValue) : string :=
  match Values with
  | [] => "type " ++ name ++ " int32"
  | _ :: _ =>
      "type " ++ name ++ " int32" ++ "; const ( "
        ++ enumConstants policy name Values ++ ")"
  end.

(** [n] unnamed arrays of one element around a 32-bit signed integer: a
    type whose literal nests [n + 1] calls of [writeTypeLit]. *)
Fixpoint nest (n : nat) : Typ :=
  match n with
  | O => Int 1 4 (mkIntEncoding true false false)
  | S k => Array (Pos.of_succ_nat n) (nest k) 1
  end.

Fixpoint nest_text (n : nat) : string :=
  match n with
  | O => "int32"
  | S k => "[1]" ++ nest_text k
  end.

Definition isEnum (typ : Typ) : bool :=
  match typ with
  | Enum _ _ => true
  | _ => false
  end.

Definition isVar (typ : Typ) : bool :=
  match typ with
  | Var _ _ _ _ => true
  | _ => false
  end.

(** A section entry that [writeDatasecLit] does not skip: every entry but
    a Variable whose linkage is not Global. *)
Definition emitted (vsi : VarSecinfo) : bool :=
  match VarSecinfo.Type_ vsi with
  | Var _ _ _ StaticVar | Var _ _ _ ExternVar => false
  | _ => true
  end.

(** Two outcomes that differ at most in the index of the variable an error
    names. *)
Definition same_outcome {A} (r r' : result A) : Prop :=
  match r, r' with
  | Ok a, Ok a' => a = a'
  | Err (errEmptyName _), Err (errEmptyName _) => True
  | Err (errInVariable _ err), Err (errInVariable _ err') => err = err'
  | Panic p, Panic p' => p = p'
  | OutOfFuel, OutOfFuel => True
  | _, _ => False
  end.

(** A method that only appends to the buffer, and whose outcome and
    appended text do not depend on what the buffer holds. *)
Definition appends {A} (m : M A) : Prop :=
  forall nm policy, exists r out, forall buffer,
    m (mkGoFormatter buffer nm policy)
    = (r, mkGoFormatter (buffer ++ out) nm policy).

(** A kind [writeTypeLit] has a case for. *)
Definition rendered (typ : Typ) : bool :=
  match typ with
  | Int _ _ _ | Enum _ _ | Typedef _ _ | Array _ _ _ | Struct _ _ _
  | Union _ _ _ | Datasec _ _ _ => true
  | _ => false
  end.

(** The text of an Integer: [bool], or the width in bits after [int] or
    [uint]. *)
Definition intText (Size : Z) (Encoding : IntEncoding) : string :=
  if IsBool Encoding && (Size =? 1) then "bool"
  else if IsSigned Encoding then "int" ++ fmtd (8 * Size)
  else "uint" ++ fmtd (8 * Size).

(** The padding field of [bytes] bytes, or nothing. *)
Definition padding (bytes : Z) : string :=
  if 0 <? bytes then "_ [" ++ fmtd bytes ++ "]byte; " else "".

(** The fields of a structure whose members follow one another from
    [prevOffset] on: before each member the bytes between the end of the
    one before and its own offset, [size m] being its size and [text m]
    its type. *)
Fixpoint fields (policy : string -> string) (size : Member -> Z)
    (text : Member -> string) (prevOffset : Z) (members : list Member)
    : string :=
  match members with
  | [] => ""
  | m :: members' =>
      let offset := Member.OffsetBits m / 8 in
      padding (offset - prevOffset) ++ policy (Member.Name m) ++ " "
        ++ text m ++ "; "
        ++ fields policy size text (offset + size m) members'
  end.

(** The end of the last member. *)
Fixpoint end_of (size : Member -> Z) (prevOffset : Z) (members : list Member)
    : Z :=
  match members with
  | [] => prevOffset
  | m :: members' => end_of size (Member.OffsetBits m / 8 + size m) members'
  end.

(** Members that have a name, are no bitfields, start on a byte, none
    before the end of the one before, and end below 2^32. *)
Fixpoint laid_out (size : Member -> Z) (prevOffset : Z)
    (members : list Member) : Prop :=
  match members with
  | [] => True
  | m :: members' =>
      Member.Name m <> "" /\ Member.BitfieldSize m <= 0
      /\ Member.OffsetBits m mod 8 = 0
      /\ prevOffset <= Member.OffsetBits m / 8 /\ 0 <= size m
      /\ Member.OffsetBits m / 8 + size m < 2 ^ 32
      /\ laid_out size (Member.OffsetBits m / 8 + size m) members'
  end.

(** The same for the entries of a data section: only the Global
    variables count, and the size of a variable is the one its entry
    gives. *)
Fixpoint variables (policy : string -> string) (text : Typ -> string)
    (prevOffset : Z) (vars : list VarSecinfo) : string :=
  match vars with
  | [] => ""
  | vsi :: vars' =>
      match VarSecinfo.Type_ vsi with
      | Var _ name typ GlobalVar =>
          padding (VarSecinfo.Offset vsi - prevOffset) ++ policy name ++ " "
            ++ text typ ++ "; "
            ++ variables policy text
                 (VarSecinfo.Offset vsi + VarSecinfo.Size vsi) vars'
      | _ => variables policy text prevOffset vars'
      end
  end.

Fixpoint end_of_variables (prevOffset : Z) (vars : list VarSecinfo) : Z :=
  match vars with
  | [] => prevOffset
  | vsi :: vars' =>
      match VarSecinfo.Type_ vsi with
      | Var _ _ _ GlobalVar =>
          end_of_variables (VarSecinfo.Offset vsi + VarSecinfo.Size vsi) vars'
      | _ => end_of_variables prevOffset vars'
      end
  end.

(** Entries that are all Variables, the Global ones named, none before
    the end of the Global one before, and ending below 2^32. *)
Fixpoint section_laid_out (prevOffset : Z) (vars : list VarSecinfo) : Prop :=
  match vars with
  | [] => True
  | vsi :: vars' =>
      match VarSecinfo.Type_ vsi with
      | Var _ name _ GlobalVar =>
          name <> "" /\ prevOffset <= VarSecinfo.Offset vsi
          /\ 0 <= VarSecinfo.Size vsi
          /\ VarSecinfo.Offset vsi + VarSecinfo.Size vsi < 2 ^ 32
          /\ section_laid_out
               (VarSecinfo.Offset vsi + VarSecinfo.Size vsi) vars'
      | Var _ _ _ _ => section_laid_out prevOffset vars'
      | _ => False
      end
  end.

(** The types of the Global variables of a section. *)
Fixpoint global_types (vars : list VarSecinfo) : list Typ :=
  match vars with
  | [] => []
  | vsi :: vars' =>
      match VarSecinfo.Type_ vsi with
      | Var _ _ typ GlobalVar => typ :: global_types vars'
      | _ => global_types vars'
      end
  end.







(** A type graph in which every Union has a first member and every entry
    of a data section holds a Variable. *)
Fixpoint sound (typ : Typ) : bool :=
  match typ with
  | Int _ _ _ | Enum _ _ | Fwd _ => true
  | Pointer _ t | Array _ t _ | Typedef _ t | Volatile _ t | Const _ t
  | Restrict _ t | Func _ t | Var _ _ t _ => sound t
  | Struct _ _ Members =>
      (fix all (l : list Member) : bool :=
         match l with
         | [] => true
         | m :: l' => sound_member m && all l'
         end) Members
  | Union _ _ Members =>
      match Members with
      | [] => false
      | m :: _ => sound_member m
      end
  | Datasec _ _ Vars =>
      (fix all (l : list VarSecinfo) : bool :=
         match l with
         | [] => true
         | vsi :: l' => sound_entry vsi && all l'
         end) Vars
  end
with sound_member (m : Member) : bool :=
  match m with
  | mkMember _ t _ _ => sound t
  end
with sound_entry (vsi : VarSecinfo) : bool :=
  match vsi with
  | mkVarSecinfo t _ _ =>
      match t with
      | Var _ _ t' _ => sound t'
      | _ => false
      end
  end.

(** A method that does not panic. *)
Definition quiet {A} (m : M A) : Prop :=
  forall gf pn, fst (m gf) <> Panic pn.

(** An outcome that is not owed to the nesting bound. *)
Definition settled {A} (r : result A) : Prop :=
  match r with
  | Err err => Is err NestedTooDeep = false
  | OutOfFuel => False
  | _ => True
  end.

(** The array of dimensions [dims], the outermost first, over [elem];
    each dimension is a node, given by its address and its length. *)
Definition arrays (dims : list (loc * Z)) (elem : Typ) : Typ :=
  fold_right (fun dim typ => Array (fst dim) typ (snd dim)) elem dims.

Definition dimensions (dims : list (loc * Z)) : string :=
  fold_right (fun dim rest => "[" ++ fmtd (snd dim) ++ "]" ++ rest) "" dims.

(** ** Reasoning about methods *)

(** Unfolds the plumbing of [M] in the goal. *)
Ltac run :=
  cbv [mbind mret M_bind M_ret fail raise try wrapping WriteString
       lookup_name identifier slice_to writePadding] in *;
  cbn [fst snd] in *;
  repeat change (names (written ?g ?s)) with (names g) in *;
  repeat change (Identifier (written ?g ?s)) with (Identifier g) in *.

Lemma append_assoc (a b c : string) : (a ++ b) ++ c = a ++ (b ++ c).
Proof.
  induction a as [|x a IH]; [reflexivity|].
  change (String x ((a ++ b) ++ c) = String x (a ++ (b ++ c))).
  now rewrite IH.
Qed.

Lemma append_nil_r (a : string) : a ++ "" = a.
Proof.
  induction a as [|x a IH]; [reflexivity|].
  change (String x (a ++ "") = String x a). now rewrite IH.
Qed.

Lemma written_written gf s t : written (written gf s) t = written gf (s ++ t).
Proof. unfold written; simpl. now rewrite append_assoc. Qed.

Lemma written_nil gf : written gf "" = gf.
Proof. destruct gf; unfold written; simpl. now rewrite append_nil_r. Qed.

Section Verification.

Variable maxTypeDepth : Z.
Variable Sizeof : Typ -> error + Z.

Abbreviation skipQualifiers := (skipQualifiers maxTypeDepth).
Abbreviation writeTypeLit := (writeTypeLit maxTypeDepth Sizeof).
Abbreviation writeTypeLit_fuel := (writeTypeLit_fuel maxTypeDepth Sizeof).
Abbreviation writeTypeLit_body := (writeTypeLit_body maxTypeDepth Sizeof).
Abbreviation writeType_ := (writeType_ maxTypeDepth).
Abbreviation writeStructLit_loop := (writeStructLit_loop maxTypeDepth Sizeof).
Abbreviation writeStructLit_ := (writeStructLit_ maxTypeDepth Sizeof).
Abbreviation writeDatasecLit_loop := (writeDatasecLit_loop maxTypeDepth).
Abbreviation writeDatasecLit_ := (writeDatasecLit_ maxTypeDepth).
Abbreviation writeType := (writeType maxTypeDepth Sizeof).
Abbreviation writeStructLit := (writeStructLit maxTypeDepth Sizeof).
Abbreviation writeDatasecLit := (writeDatasecLit maxTypeDepth Sizeof).
Abbreviation writeTypeDecl := (writeTypeDecl maxTypeDepth Sizeof).
Abbreviation TypeDeclaration := (TypeDeclaration maxTypeDepth Sizeof).

(** The methods look at the function they call back at their own [depth]
    only. *)
Section Ext.

Variables f g : Typ -> Z -> M unit.
Variable depth : Z.
Hypothesis fg : forall typ gf, f typ depth gf = g typ depth gf.

Lemma writeType_ext typ gf : writeType_ f typ depth gf = writeType_ g typ depth gf.
Proof.
  unfold writeType_. run.
  destruct (skipQualifiers typ) as [e|t]; [reflexivity|].
  destruct (negb _); [reflexivity | apply fg].
Qed.

Lemma writeStructLit_loop_ext members : forall i prevOffset gf,
  writeStructLit_loop f depth i prevOffset members gf
  = writeStructLit_loop g depth i prevOffset members gf.
Proof.
  induction members as [|m members IH]; intros i prevOffset gf; [reflexivity|].
  cbn [btf.writeStructLit_loop].
  destruct (String.eqb _ _); [reflexivity|].
  destruct (0 <? _); [reflexivity|].
  destruct (negb _); [reflexivity|].
  run. destruct (Sizeof _) as [e|size]; [reflexivity|].
  destruct (0 <? _); rewrite writeType_ext;
    (destruct (writeType_ g _ _ _) as [[[]| | |] gf']; [apply IH | reflexivity ..]).
Qed.

Lemma writeStructLit_ext size members gf :
  writeStructLit_ f size members depth gf = writeStructLit_ g size members depth gf.
Proof. unfold btf.writeStructLit_. run. now rewrite writeStructLit_loop_ext. Qed.

Lemma writeDatasecLit_loop_ext vars : forall i prevOffset gf,
  writeDatasecLit_loop f depth i prevOffset vars gf
  = writeDatasecLit_loop g depth i prevOffset vars gf.
Proof.
  induction vars as [|vsi vars IH]; intros i prevOffset gf; [reflexivity|].
  cbn [btf.writeDatasecLit_loop].
  destruct (VarSecinfo.Type_ vsi); try reflexivity.
  destruct Linkage; try apply IH.
  destruct (String.eqb _ _); [reflexivity|].
  run. destruct (0 <? _); rewrite writeType_ext;
    (destruct (writeType_ g _ _ _) as [[[]| | |] gf']; [apply IH | reflexivity ..]).
Qed.

Lemma writeDatasecLit_ext size vars gf :
  writeDatasecLit_ f size vars depth gf = writeDatasecLit_ g size vars depth gf.
Proof. unfold btf.writeDatasecLit_. run. now rewrite writeDatasecLit_loop_ext. Qed.

End Ext.

Lemma writeTypeLit_body_ext f g typ depth gf :
  (forall t gf', f t (depth + 1) gf' = g t (depth + 1) gf') ->
  writeTypeLit_body f typ depth gf = writeTypeLit_body g typ depth gf.
Proof.
  intros fg. unfold btf.writeTypeLit_body.
  destruct (maxTypeDepth <? depth + 1); [reflexivity|].
  run. destruct (skipQualifiers typ) as [e|t]; [reflexivity|].
  destruct t; try reflexivity.
  - now rewrite (writeType_ext f g (depth + 1) fg).
  - now rewrite (writeStructLit_ext f g (depth + 1) fg).
  - destruct (1 <=? length Members)%nat; [|reflexivity].
    now rewrite (writeStructLit_ext f g (depth + 1) fg).
  - now rewrite (writeType_ext f g (depth + 1) fg).
  - now rewrite (writeDatasecLit_ext f g (depth + 1) fg).
Qed.

(** More fuel than the nesting bound leaves room for changes nothing. *)
Lemma writeTypeLit_fuel_enough : forall (n fuel1 fuel2 : nat) typ depth gf,
  Z.to_nat (maxTypeDepth - depth) = n ->
  (n < fuel1)%nat -> (n < fuel2)%nat ->
  writeTypeLit_fuel fuel1 typ depth gf = writeTypeLit_fuel fuel2 typ depth gf.
Proof.
  induction n as [|n IH]; intros fuel1 fuel2 typ depth gf Hn H1 H2;
    (destruct fuel1 as [|fuel1]; [lia|]); (destruct fuel2 as [|fuel2]; [lia|]);
    cbn [btf.writeTypeLit_fuel].
  - unfold btf.writeTypeLit_body.
    destruct (Z.ltb_spec maxTypeDepth (depth + 1)); [reflexivity | lia].
  - apply writeTypeLit_body_ext. intros t gf'. apply IH; lia.
Qed.

(** [writeTypeLit] is its body over itself. *)
Lemma writeTypeLit_unfold typ depth gf :
  writeTypeLit typ depth gf = writeTypeLit_body writeTypeLit typ depth gf.
Proof.
  unfold btf.writeTypeLit at 1. cbn [btf.writeTypeLit_fuel].
  destruct (Z.ltb_spec maxTypeDepth (depth + 1)) as [Hd|Hd].
  - unfold btf.writeTypeLit_body.
    destruct (Z.ltb_spec maxTypeDepth (depth + 1)); [reflexivity | lia].
  - apply writeTypeLit_body_ext. intros t gf'. unfold btf.writeTypeLit.
    apply (writeTypeLit_fuel_enough (Z.to_nat (maxTypeDepth - (depth + 1)))); lia.
Qed.


(** *** Properties every method has

    A property of methods that holds of the primitives and is kept by
    sequencing holds of every method of the formatter. *)
Section Closure.

Variable P : forall A : Type, M A -> Prop.
Arguments P {A} _.

Hypothesis P_ext : forall A (m m' : M A), (forall gf, m gf = m' gf) -> P m -> P m'.
Hypothesis P_ret : forall A (a : A), P (mret a).
Hypothesis P_bind : forall A B (m : M A) (f : A -> M B),
  P m -> (forall a, P (f a)) -> P (m ≫= f).
Hypothesis P_fail : forall A err, P (@fail A err).
Hypothesis P_raise : forall A p, P (@raise A p).
Hypothesis P_wrapping : forall A wrap (m : M A), P m -> P (wrapping wrap m).
Hypothesis P_WriteString : forall s, P (WriteString s).
Hypothesis P_lookup_name : forall typ, P (lookup_name typ).
Hypothesis P_identifier : forall s, P (identifier s).

Lemma P_try A wrap (r : error + A) : P (try wrap r).
Proof. destruct r; simpl; auto. Qed.

Lemma P_writePadding bytes : P (writePadding bytes).
Proof. unfold writePadding. destruct (0 <? bytes); auto. Qed.

Lemma P_writeIntLit Size Encoding : P (writeIntLit Size Encoding).
Proof.
  unfold writeIntLit. destruct (_ && _); [auto|]. destruct (IsSigned _); auto.
Qed.

Lemma P_slice_to A high (s : list A) : P (slice_to high s).
Proof. unfold slice_to. destruct (_ <=? _)%nat; auto. Qed.

Hint Resolve P_try P_writePadding P_writeIntLit P_slice_to : core.

Section Callee.

Variable f : Typ -> Z -> M unit.
Variable depth : Z.
Hypothesis P_f : forall typ, P (f typ depth).

Lemma P_writeType typ : P (writeType_ f typ depth).
Proof.
  unfold btf.writeType_. apply P_bind; [auto|]. intros t.
  apply P_bind; [auto|]. intros name. destruct (negb _); auto.
Qed.

Lemma P_writeStructLit_loop members : forall i prevOffset,
  P (writeStructLit_loop f depth i prevOffset members).
Proof.
  induction members as [|m members IH]; intros i prevOffset;
    cbn [btf.writeStructLit_loop]; [auto|].
  destruct (String.eqb _ _); [auto|].
  destruct (0 <? _); [auto|].
  destruct (negb _); [auto|].
  apply P_bind; [auto|]. intros size.
  apply P_bind; [auto|]. intros _.
  apply P_bind; [auto|]. intros id.
  apply P_bind; [auto|]. intros _.
  apply P_bind; [apply P_wrapping, P_writeType|]. intros _.
  apply P_bind; auto.
Qed.

Lemma P_writeStructLit size members : P (writeStructLit_ f size members depth).
Proof.
  unfold btf.writeStructLit_. apply P_bind; [auto|]. intros _.
  apply P_bind; [apply P_writeStructLit_loop|]. intros prevOffset.
  apply P_bind; auto.
Qed.

Lemma P_writeDatasecLit_loop vars : forall i prevOffset,
  P (writeDatasecLit_loop f depth i prevOffset vars).
Proof.
  induction vars as [|vsi vars IH]; intros i prevOffset;
    cbn [btf.writeDatasecLit_loop]; [auto|].
  destruct (VarSecinfo.Type_ vsi); auto.
  destruct Linkage; auto.
  destruct (String.eqb _ _); [auto|].
  apply P_bind; [auto|]. intros _.
  apply P_bind; [auto|]. intros id.
  apply P_bind; [auto|]. intros _.
  apply P_bind; [apply P_wrapping, P_writeType|]. intros _.
  apply P_bind; auto.
Qed.

Lemma P_writeDatasecLit size vars : P (writeDatasecLit_ f size vars depth).
Proof.
  unfold btf.writeDatasecLit_. apply P_bind; [auto|]. intros _.
  apply P_bind; [apply P_writeDatasecLit_loop|]. intros prevOffset.
  apply P_bind; auto.
Qed.

End Callee.

Lemma P_writeTypeLit_body f typ depth :
  ((maxTypeDepth <? depth + 1) = false -> forall t, P (f t (depth + 1))) ->
  P (writeTypeLit_body f typ depth).
Proof.
  intros P_f. unfold btf.writeTypeLit_body.
  destruct (maxTypeDepth <? depth + 1); [auto|].
  specialize (P_f eq_refl).
  apply P_bind; [auto|]. intros t.
  destruct t; auto.
  - apply P_bind; [auto|]. intros _. apply P_wrapping, P_writeType, P_f.
  - apply P_wrapping, P_writeStructLit, P_f.
  - apply P_bind; [auto|]. intros first. apply P_wrapping, P_writeStructLit, P_f.
  - apply P_wrapping, P_writeType, P_f.
  - apply P_wrapping, P_writeDatasecLit, P_f.
Qed.

Lemma P_writeTypeLit : forall typ depth, P (writeTypeLit typ depth).
Proof.
  assert (H : forall (n : nat) typ depth,
             Z.to_nat (maxTypeDepth - depth) = n -> P (writeTypeLit typ depth)).
  { induction n as [|n IH]; intros typ depth Hn;
      (apply (P_ext _ (writeTypeLit_body writeTypeLit typ depth));
        [intros gf; symmetry; apply writeTypeLit_unfold|]);
      apply P_writeTypeLit_body; intros Hd t;
      apply Z.ltb_ge in Hd; [lia | apply IH; lia]. }
  intros typ depth. now apply (H _ typ depth eq_refl).
Qed.

Lemma P_writeEnumValues name Values : P (writeEnumValues name Values).
Proof.
  induction Values as [|ev Values IH]; cbn [writeEnumValues]; [auto|].
  apply P_bind; [auto|]. intros id. apply P_bind; auto.
Qed.

Lemma P_writeTypeDecl name typ : P (writeTypeDecl name typ).
Proof.
  unfold btf.writeTypeDecl. destruct (String.eqb name ""); [auto|].
  apply P_bind; [auto|]. intros t.
  assert (Hlit : P (WriteString ("type " ++ name ++ " ");; writeTypeLit t 0)).
  { apply P_bind; [auto|]. intros _. apply P_writeTypeLit. }
  destruct t; try exact Hlit.
  apply P_bind; [auto|]. intros _.
  destruct (_ =? _)%nat; [auto|].
  apply P_bind; [auto|]. intros _.
  apply P_bind; [apply P_writeEnumValues|]. auto.
Qed.

End Closure.

(** *** No method touches the name table or the identifier policy *)

Lemma frames_bind A B (m : M A) (f : A -> M B) :
  frames m -> (forall a, frames (f a)) -> frames (m ≫= f).
Proof.
  intros Hm Hf gf. specialize (Hm gf). run.
  destruct (m gf) as [[a| | |] gf']; cbn [snd] in *; try exact Hm.
  destruct (Hf a gf') as [Hn Hi]. destruct Hm as [Hn' Hi'].
  split; congruence.
Qed.

Lemma frames_wrapping A wrap (m : M A) : frames m -> frames (wrapping wrap m).
Proof.
  intros Hm gf. specialize (Hm gf). run.
  now destruct (m gf) as [[a| | |] gf'].
Qed.

Lemma frames_ext A (m m' : M A) : (forall gf, m gf = m' gf) -> frames m -> frames m'.
Proof. intros E Hm gf. rewrite <- E. apply Hm. Qed.

Lemma frames_writeTypeDecl name typ : frames (writeTypeDecl name typ).
Proof.
  apply (P_writeTypeDecl (@frames)); intros;
    eauto using frames_ext, frames_bind, frames_wrapping;
    intros gf; now split.
Qed.

Lemma frames_writeTypeLit typ depth : frames (writeTypeLit typ depth).
Proof.
  apply (P_writeTypeLit (@frames)); intros;
    eauto using frames_ext, frames_bind, frames_wrapping;
    intros gf; now split.
Qed.

(** *** Every method has an outcome *)

Lemma total_bind A B (m : M A) (f : A -> M B) :
  total m -> (forall a, total (f a)) -> total (m ≫= f).
Proof.
  intros Hm Hf gf. specialize (Hm gf). run.
  destruct (m gf) as [[a| | |] gf']; cbn [fst] in *; try discriminate.
  - apply Hf.
  - congruence.
Qed.

Lemma total_wrapping A wrap (m : M A) : total m -> total (wrapping wrap m).
Proof.
  intros Hm gf. specialize (Hm gf). run.
  destruct (m gf) as [[a| | |] gf']; cbn [fst] in *; congruence.
Qed.

Lemma total_ext A (m m' : M A) : (forall gf, m gf = m' gf) -> total m -> total m'.
Proof. intros E Hm gf. rewrite <- E. apply Hm. Qed.

Lemma total_writeTypeLit typ depth : total (writeTypeLit typ depth).
Proof.
  apply (P_writeTypeLit (@total)); intros;
    eauto using total_ext, total_bind, total_wrapping;
    intros gf; discriminate.
Qed.

Lemma total_writeTypeDecl name typ : total (writeTypeDecl name typ).
Proof.
  apply (P_writeTypeDecl (@total)); intros;
    eauto using total_ext, total_bind, total_wrapping;
    intros gf; discriminate.
Qed.

(** [TypeDeclaration] returns or panics: the bound on the nested calls is
    never what ends it. *)
Lemma TypeDeclaration_total gf name typ :
  fst (TypeDeclaration gf name typ) <> OutOfFuel.
Proof.
  unfold btf.TypeDeclaration.
  pose proof (total_writeTypeDecl name typ (Reset gf)) as H.
  destruct (writeTypeDecl name typ (Reset gf)) as [[a| | |] gf'];
    cbn [fst] in *; congruence.
Qed.

(** *** Errors *)

(** [Is] follows [Unwrap], as [errors.Is] does. *)
Lemma Is_Unwrap err err' target :
  Unwrap err = Some err' -> Is err target = Is err' target.
Proof.
  destruct err; cbn [Unwrap]; intros H; try discriminate H;
    injection H as <-; now destruct target.
Qed.

(** *** The qualifier resolver *)

Lemma skipQualifiers_loop_result n : forall typ t,
  skipQualifiers_loop n typ = inr t -> isQualifier t = false.
Proof.
  induction n as [|n IH]; intros typ t H; [discriminate|].
  destruct typ; cbn in H; try (injection H as <-; reflexivity); eauto.
Qed.

Lemma skipQualifiers_loop_fixed n typ :
  isQualifier typ = false -> skipQualifiers_loop (S n) typ = inr typ.
Proof. destruct typ; intros H; try discriminate; reflexivity. Qed.

(** A node that is no qualifier resolves to itself. *)
Lemma skipQualifiers_fixed typ :
  0 <= maxTypeDepth -> isQualifier typ = false -> skipQualifiers typ = inr typ.
Proof.
  intros Hd H. unfold btf.skipQualifiers.
  replace (Z.to_nat (maxTypeDepth + 1)) with (S (Z.to_nat maxTypeDepth)) by lia.
  now apply skipQualifiers_loop_fixed.
Qed.

(** What the resolver returns resolves to itself. *)
Lemma skipQualifiers_idempotent typ t :
  skipQualifiers typ = inr t -> skipQualifiers t = inr t.
Proof.
  unfold btf.skipQualifiers. intros H.
  destruct (Z.to_nat (maxTypeDepth + 1)) as [|n]; [discriminate|].
  apply skipQualifiers_loop_fixed. eapply skipQualifiers_loop_result, H.
Qed.

(** *** The declaration of a type that is no Enumeration *)

Lemma append_nil_l (s : string) : "" ++ s = s.
Proof. reflexivity. Qed.

Lemma writeTypeDecl_literal name typ t gf :
  name <> "" -> skipQualifiers typ = inr t -> isEnum t = false ->
  writeTypeDecl name typ gf
  = writeTypeLit t 0 (written gf ("type " ++ name ++ " ")).
Proof.
  intros Hname Hq He. unfold btf.writeTypeDecl.
  apply String.eqb_neq in Hname. rewrite Hname.
  run. rewrite Hq. destruct t; try reflexivity; discriminate.
Qed.

(** ** The properties of the formatter *)

(** C8. Two calls of [TypeDeclaration] with the same name and type on a
    formatter whose name table and identifier policy are unchanged return
    the same pair, the same text or the same error: the second call, run
    on the formatter the first one leaves, returns what the first returned,
    and what is in the buffer before a call has no effect on what the call
    returns, since the buffer is reset first. *)
Theorem TypeDeclaration_idempotent gf name typ :
  TypeDeclaration (snd (TypeDeclaration gf name typ)) name typ
  = TypeDeclaration gf name typ
  /\ forall buffer,
       TypeDeclaration (mkGoFormatter buffer (names gf) (Identifier gf)) name typ
       = TypeDeclaration gf name typ.
Proof.
  split; [|reflexivity].
  assert (E : Reset (snd (TypeDeclaration gf name typ)) = Reset gf).
  { unfold btf.TypeDeclaration.
    destruct (frames_writeTypeDecl name typ (Reset gf)) as [Hn Hi].
    destruct (writeTypeDecl name typ (Reset gf)) as [[a| | |] gf'];
      cbn [snd] in *; unfold Reset; now rewrite Hn, Hi. }
  unfold btf.TypeDeclaration at 1. rewrite E. reflexivity.
Qed.


(** C3. The literal of a Union is that of its first member and its size:
    whatever members follow the first, [writeTypeLit], [writeType] and
    [TypeDeclaration] write the same text and return the same outcome. *)
Theorem union_first_member_only gf name p Size m rest rest' depth :
  writeTypeLit (Union p Size (m :: rest)) depth gf
  = writeTypeLit (Union p Size (m :: rest')) depth gf
  /\ writeType (Union p Size (m :: rest)) depth gf
     = writeType (Union p Size (m :: rest')) depth gf
  /\ TypeDeclaration gf name (Union p Size (m :: rest))
     = TypeDeclaration gf name (Union p Size (m :: rest')).
Proof.
  assert (Hlit : forall d gf',
            writeTypeLit (Union p Size (m :: rest)) d gf'
            = writeTypeLit (Union p Size (m :: rest')) d gf').
  { intros d gf'. rewrite !writeTypeLit_unfold. unfold btf.writeTypeLit_body.
    destruct (maxTypeDepth <? d + 1); [reflexivity|].
    unfold btf.skipQualifiers.
    destruct (Z.to_nat (maxTypeDepth + 1)); reflexivity. }
  split; [apply Hlit|]. split.
  - unfold btf.writeType, btf.writeType_, btf.skipQualifiers.
    destruct (Z.to_nat (maxTypeDepth + 1)); [reflexivity|].
    run. cbn [skipQualifiers_loop addr].
    destruct (negb _); [reflexivity | apply Hlit].
  - unfold btf.TypeDeclaration, btf.writeTypeDecl.
    cbn [addr]. destruct (String.eqb name ""); [reflexivity|].
    unfold btf.skipQualifiers.
    destruct (Z.to_nat (maxTypeDepth + 1)); [reflexivity|].
    run. cbn [skipQualifiers_loop]. now rewrite Hlit.
Qed.

(** C2, as the code has it. An Enumeration rendered by [writeTypeLit] is
    the literal [int32], whatever the name table holds; rendered by
    [writeType], as a member or an element is, it is [int32] only when the
    name table has no name for it, and its bare name otherwise. *)
Theorem enum_literal gf typ p Values depth :
  skipQualifiers typ = inr (Enum p Values) -> depth < maxTypeDepth ->
  writeTypeLit typ depth gf = (Ok tt, written gf "int32")
  /\ writeType typ depth gf
     = (Ok tt,
        written gf (if String.eqb (default "" (names gf !! p)) "" then "int32"
                    else default "" (names gf !! p))).
Proof.
  intros Hq Hd.
  assert (Hlit : forall t, skipQualifiers t = inr (Enum p Values) ->
            writeTypeLit t depth gf = (Ok tt, written gf "int32")).
  { intros t Ht. rewrite writeTypeLit_unfold. unfold btf.writeTypeLit_body.
    destruct (Z.ltb_spec maxTypeDepth (depth + 1)); [lia|].
    run. rewrite Ht. reflexivity. }
  split; [now apply Hlit|].
  unfold btf.writeType, btf.writeType_. run. rewrite Hq. cbn [addr].
  destruct (String.eqb _ ""); cbn [negb]; [|reflexivity].
  apply Hlit. eapply skipQualifiers_idempotent, Hq.
Qed.

(** The loop over the values writes one constant per value, in order. *)
Lemma writeEnumValues_spec name Values : forall gf,
  writeEnumValues name Values gf
  = (Ok tt, written gf (enumConstants (Identifier gf) name Values)).
Proof.
  induction Values as [|ev Values IH]; intros gf; cbn [writeEnumValues].
  - unfold enumConstants; cbn [fold_right]. now rewrite written_nil.
  - run. rewrite IH. unfold written; cbn [w names Identifier].
    unfold enumConstants, enumConstant; cbn [fold_right].
    now rewrite !append_assoc.
Qed.

(** C5. A declaration whose type resolves to an Enumeration is the alias
    of the name to [int32], alone when the Enumeration has no value, and
    otherwise followed by one constant per value, in the declared order:
    the declaration name followed by the transformed value name, typed as
    the declaration name, assigned the integer of the value. *)
Theorem enum_declaration gf name typ p Values :
  name <> "" -> skipQualifiers typ = inr (Enum p Values) ->
  TypeDeclaration gf name typ
  = (Ok (enumDeclaration (Identifier gf) name Values, None),
     mkGoFormatter (enumDeclaration (Identifier gf) name Values)
                   (names gf) (Identifier gf)).
Proof.
  intros Hname Hq.
  unfold btf.TypeDeclaration, btf.writeTypeDecl.
  apply String.eqb_neq in Hname. rewrite Hname.
  run. rewrite Hq. destruct Values as [|ev Values]; [reflexivity|].
  cbn [length Nat.eqb]. rewrite writeEnumValues_spec.
  unfold written, Reset, enumDeclaration; cbn [w names Identifier].
  change ("" ++ "type " ++ name ++ " int32") with ("type " ++ name ++ " int32").
  now rewrite !append_assoc.
Qed.

(** *** The nesting bound *)

(** A call at [maxTypeDepth] or beyond fails at once. *)
Lemma writeTypeLit_too_deep typ depth gf :
  maxTypeDepth <= depth -> writeTypeLit typ depth gf = (Err errNestedTooDeep, gf).
Proof.
  intros Hd. rewrite writeTypeLit_unfold. unfold btf.writeTypeLit_body.
  destruct (Z.ltb_spec maxTypeDepth (depth + 1)); [reflexivity | lia].
Qed.





(** *** The loop over the entries of a data section *)

Section DatasecLoop.

Variable f : Typ -> Z -> M unit.
Variable depth : Z.

(** The loop over [pre ++ post] is the loop over [pre], then the loop over
    [post] from where the first one stopped. *)
Lemma writeDatasecLit_loop_app pre post : forall i prevOffset gf,
  writeDatasecLit_loop f depth i prevOffset (pre ++ post) gf
  = match writeDatasecLit_loop f depth i prevOffset pre gf with
    | (Ok prevOffset', gf') =>
        writeDatasecLit_loop f depth (i + length pre) prevOffset' post gf'
    | (Err err, gf') => (Err err, gf')
    | (Panic p, gf') => (Panic p, gf')
    | (OutOfFuel, gf') => (OutOfFuel, gf')
    end.
Proof.
  induction pre as [|vsi pre IH]; intros i prevOffset gf.
  - cbn [app length btf.writeDatasecLit_loop]. run. now rewrite Nat.add_0_r.
  - cbn [app length btf.writeDatasecLit_loop].
    replace (i + S (length pre))%nat with (S i + length pre)%nat by lia.
    destruct (VarSecinfo.Type_ vsi); try reflexivity.
    destruct Linkage; try apply IH.
    destruct (String.eqb _ _); [reflexivity|].
    run. destruct (0 <? _);
      (destruct (writeType_ f _ _ _) as [[[]| | |] gf']; [apply IH | reflexivity ..]).
Qed.

(** An entry that is no Variable stops the loop with a panic, whatever
    came before in the buffer. *)
Lemma writeDatasecLit_loop_not_var vsi vars i prevOffset gf :
  isVar (VarSecinfo.Type_ vsi) = false ->
  writeDatasecLit_loop f depth i prevOffset (vsi :: vars) gf
  = (Panic (interfaceConversion (addr (VarSecinfo.Type_ vsi))), gf).
Proof.
  intros H. cbn [btf.writeDatasecLit_loop].
  destruct (VarSecinfo.Type_ vsi); try reflexivity; discriminate.
Qed.

(** The loop over the entries and the loop over the entries that are not
    skipped leave the same buffer and have the same outcome. *)
Lemma writeDatasecLit_loop_filter vars : forall i j prevOffset gf,
  snd (writeDatasecLit_loop f depth i prevOffset vars gf)
  = snd (writeDatasecLit_loop f depth j prevOffset (List.filter emitted vars) gf)
  /\ same_outcome
       (fst (writeDatasecLit_loop f depth i prevOffset vars gf))
       (fst (writeDatasecLit_loop f depth j prevOffset (List.filter emitted vars) gf)).
Proof.
  induction vars as [|vsi vars IH]; intros i j prevOffset gf.
  - now split.
  - cbn [List.filter].
    destruct (emitted vsi) eqn:Hem; unfold emitted in Hem;
      cbn [btf.writeDatasecLit_loop];
      destruct (VarSecinfo.Type_ vsi); try discriminate; try (now split);
      destruct Linkage; try discriminate; try apply IH.
    destruct (String.eqb _ _); [now split|].
    run. destruct (0 <? _);
      (destruct (writeType_ f _ _ _) as [[[]| | |] gf']; [apply IH | now split ..]).
Qed.

End DatasecLoop.

(** C10. Every entry of a rendered DataSection must hold a Variable: the
    loop of [writeDatasecLit] asserts the kind of the entry before it
    looks at anything else, the linkage included, so an entry of another
    kind panics where the loop reaches it, and no error is returned. *)
Theorem datasec_entry_must_be_a_variable
    gf Size pre vsi post depth prevOffset gf1 :
  isVar (VarSecinfo.Type_ vsi) = false ->
  writeDatasecLit_loop writeTypeLit depth 0 0 pre (written gf "struct { ")
  = (Ok prevOffset, gf1) ->
  writeDatasecLit Size (pre ++ vsi :: post) depth gf
  = (Panic (interfaceConversion (addr (VarSecinfo.Type_ vsi))), gf1).
Proof.
  intros Hvar Hpre.
  unfold btf.writeDatasecLit, btf.writeDatasecLit_. run.
  rewrite writeDatasecLit_loop_app, Hpre.
  now rewrite writeDatasecLit_loop_not_var.
Qed.

(** C4. The entries of a DataSection whose linkage is not Global are
    skipped: the text written is the text written for the section without
    them, padding included, and the outcome is the same (an error names
    the index the variable has in the section it was found in); a skipped
    entry writes nothing, leaves the running offset where it was and is
    not asked for a name; a Global entry without a name fails with the
    empty-name error. *)
Theorem datasec_skips_non_global
    gf Size Vars depth p name typ Offset Size' i prevOffset rest :
  (snd (writeDatasecLit Size Vars depth gf)
   = snd (writeDatasecLit Size (List.filter emitted Vars) depth gf)
   /\ same_outcome (fst (writeDatasecLit Size Vars depth gf))
        (fst (writeDatasecLit Size (List.filter emitted Vars) depth gf)))
  /\ writeDatasecLit_loop writeTypeLit depth i prevOffset
       (mkVarSecinfo (Var p name typ StaticVar) Offset Size' :: rest) gf
     = writeDatasecLit_loop writeTypeLit depth (S i) prevOffset rest gf
  /\ writeDatasecLit_loop writeTypeLit depth i prevOffset
       (mkVarSecinfo (Var p name typ ExternVar) Offset Size' :: rest) gf
     = writeDatasecLit_loop writeTypeLit depth (S i) prevOffset rest gf
  /\ writeDatasecLit_loop writeTypeLit depth i prevOffset
       (mkVarSecinfo (Var p "" typ GlobalVar) Offset Size' :: rest) gf
     = (Err (errEmptyName i), gf).
Proof.
  split; [|repeat split; reflexivity].
  unfold btf.writeDatasecLit, btf.writeDatasecLit_. run.
  destruct (writeDatasecLit_loop_filter writeTypeLit depth Vars 0 0 0
              (written gf "struct { ")) as [Hbuf Hout].
  destruct (writeDatasecLit_loop _ _ _ _ Vars _) as [r1 gf1].
  destruct (writeDatasecLit_loop _ _ _ _ (List.filter emitted Vars) _) as [r2 gf2].
  cbn [fst snd] in *. subst gf2.
  destruct r1 as [a|e|pn|], r2 as [a'|e'|pn'|];
    try (split; [reflexivity | exact Hout]);
    try (exfalso; exact Hout); try (exfalso; destruct e; exact Hout).
  cbn [same_outcome] in Hout. subst a'. destruct (0 <? _); now split.
Qed.

(** *** The loop over the members of a structure *)

Section StructLoop.

Variable f : Typ -> Z -> M unit.
Variable depth : Z.





End StructLoop.



(** *** Gaps *)

(** A gap below zero wraps around: it is not zero and not negative. *)
Lemma uint32_negative_gap a b :
  0 <= a < b -> b < 2 ^ 32 ->
  uint32 (a - b) = 2 ^ 32 - (b - a) /\ (0 <? uint32 (a - b)) = true.
Proof.
  intros Hab Hb.
  assert (E : uint32 (a - b) = 2 ^ 32 - (b - a)).
  { unfold uint32.
    replace (a - b) with ((2 ^ 32 - (b - a)) + (-1) * 2 ^ 32) by lia.
    rewrite Z_mod_plus_full. apply Z.mod_small. lia. }
  split; [exact E|]. rewrite E. apply Z.ltb_lt. lia.
Qed.

(** C1, as the code has it. A member whose byte offset is before the end
    of the member written before it does not make the emission fail, and
    the gap is not clamped: it is computed on 32 bits without sign, wraps
    around to 2^32 less the overlap, and is written as a padding field of
    that many bytes, after which the member is written as any other; the
    same holds of the trailing gap when the declared size is before the
    end of the last member. *)
Theorem overlap_wraps_around
    gf depth i prevOffset m rest size Size members prevEnd gf1 :
  Member.Name m <> "" -> Member.BitfieldSize m <= 0 ->
  Member.OffsetBits m mod 8 = 0 ->
  Sizeof (Member.Type_ m) = inr size ->
  0 <= Member.OffsetBits m / 8 < prevOffset -> prevOffset < 2 ^ 32 ->
  writeStructLit_loop writeTypeLit depth 0 0 members (written gf "struct { ")
  = (Ok prevEnd, gf1) ->
  0 <= Size < prevEnd -> prevEnd < 2 ^ 32 ->
  writeStructLit_loop writeTypeLit depth i prevOffset (m :: rest) gf
  = (WriteString
       ("_ [" ++ fmtd (2 ^ 32 - (prevOffset - Member.OffsetBits m / 8))
          ++ "]byte; ");;
     id ← identifier (Member.Name m);
     WriteString (id ++ " ");;
     wrapping (errInField i) (writeType (Member.Type_ m) depth);;
     WriteString "; ";;
     writeStructLit_loop writeTypeLit depth (S i)
       (uint32 (Member.OffsetBits m / 8 + uint32 size)) rest) gf
  /\ writeStructLit Size members depth gf
     = (Ok tt,
        written gf1 ("_ [" ++ fmtd (2 ^ 32 - (prevEnd - Size)) ++ "]byte; }")).
Proof.
  intros Hname Hbits Halign Hsize Hoff Hprev Hloop HSize HprevEnd. split.
  - cbn [btf.writeStructLit_loop].
    apply String.eqb_neq in Hname. rewrite Hname.
    apply Z.ltb_ge in Hbits. rewrite Hbits.
    rewrite Halign. cbn [Z.eqb negb].
    destruct (uint32_negative_gap _ _ Hoff Hprev) as [E Hpos].
    unfold btf.writeType. run. rewrite Hsize, Hpos, E. reflexivity.
  - unfold btf.writeStructLit, btf.writeStructLit_. run.
    rewrite Hloop.
    destruct (uint32_negative_gap _ _ HSize HprevEnd) as [E Hpos].
    rewrite Hpos, E, written_written, !append_assoc. reflexivity.
Qed.

(** ** More of the formatter *)

(** *** The buffer is only appended to *)

Lemma appends_ext A (m m' : M A) :
  (forall gf, m gf = m' gf) -> appends m -> appends m'.
Proof.
  intros E Hm nm policy. destruct (Hm nm policy) as (r & out & H).
  exists r, out. intros buffer. now rewrite <- E.
Qed.

Lemma appends_ret A (a : A) : appends (mret a).
Proof.
  intros nm policy. exists (Ok a), "". intros buffer.
  run. now rewrite append_nil_r.
Qed.

Lemma appends_bind A B (m : M A) (f : A -> M B) :
  appends m -> (forall a, appends (f a)) -> appends (m ≫= f).
Proof.
  intros Hm Hf nm policy. destruct (Hm nm policy) as (r & out & H).
  destruct r as [a|err|pn|].
  - destruct (Hf a nm policy) as (r' & out' & H').
    exists r', (out ++ out'). intros buffer.
    run. now rewrite H, H', append_assoc.
  - exists (Err err), out. intros buffer. run. now rewrite H.
  - exists (Panic pn), out. intros buffer. run. now rewrite H.
  - exists OutOfFuel, out. intros buffer. run. now rewrite H.
Qed.

Lemma appends_stop A (r : result A) : appends (fun gf => (r, gf)).
Proof.
  intros nm policy. exists r, "". intros buffer. now rewrite append_nil_r.
Qed.

Lemma appends_wrapping A wrap (m : M A) : appends m -> appends (wrapping wrap m).
Proof.
  intros Hm nm policy. destruct (Hm nm policy) as (r & out & H).
  exists (match r with Err e => Err (wrap e) | _ => r end), out.
  intros buffer. run. rewrite H. now destruct r.
Qed.

Lemma appends_WriteString s : appends (WriteString s).
Proof. intros nm policy. now exists (Ok tt), s. Qed.

Lemma appends_lookup_name typ : appends (lookup_name typ).
Proof.
  intros nm policy. exists (Ok (default "" (nm !! addr typ))), "".
  intros buffer. run. now rewrite append_nil_r.
Qed.

Lemma appends_identifier s : appends (identifier s).
Proof.
  intros nm policy. exists (Ok (policy s)), "".
  intros buffer. run. now rewrite append_nil_r.
Qed.

Lemma appends_writeTypeLit typ depth : appends (writeTypeLit typ depth).
Proof.
  apply (P_writeTypeLit (@appends)); intros;
    eauto using appends_ext, appends_bind, appends_wrapping, appends_ret,
      appends_WriteString, appends_lookup_name, appends_identifier;
    apply appends_stop.
Qed.

Lemma appends_writeTypeDecl name typ : appends (writeTypeDecl name typ).
Proof.
  apply (P_writeTypeDecl (@appends)); intros;
    eauto using appends_ext, appends_bind, appends_wrapping, appends_ret,
      appends_WriteString, appends_lookup_name, appends_identifier;
    apply appends_stop.
Qed.

(** X1. No method reads, erases or rewrites the buffer: a call of
    [writeTypeLit] appends one text to whatever the buffer holds, and
    that text and the outcome of the call are the same for every content
    of the buffer. *)
Theorem writeTypeLit_only_appends typ depth gf :
  exists out, forall buffer,
    writeTypeLit typ depth (mkGoFormatter buffer (names gf) (Identifier gf))
    = (fst (writeTypeLit typ depth gf),
       mkGoFormatter (buffer ++ out) (names gf) (Identifier gf)).
Proof.
  destruct (appends_writeTypeLit typ depth (names gf) (Identifier gf))
    as (r & out & H).
  exists out. intros buffer. rewrite H. f_equal.
  destruct gf as [buf nm policy]; cbn [names Identifier] in *.
  now rewrite H.
Qed.

(** X2. What a successful call of [TypeDeclaration] returns is a
    declaration of the name it was given: the name is not empty, the text
    starts with [type], the name and a space, and the text is what the
    buffer holds after the call. *)
Theorem TypeDeclaration_success gf name typ text gf' :
  TypeDeclaration gf name typ = (Ok (text, None), gf') ->
  name <> ""
  /\ (exists rest, text = "type " ++ name ++ " " ++ rest)
  /\ w gf' = text.
Proof.
  unfold btf.TypeDeclaration. intros H.
  destruct (writeTypeDecl name typ (Reset gf)) as [[[]|err|pn|] gf1] eqn:E;
    try discriminate H.
  injection H as <- <-.
  assert (Hname : name <> "").
  { intros ->. unfold btf.writeTypeDecl in E. discriminate E. }
  split; [exact Hname|]. split; [|reflexivity].
  destruct (skipQualifiers typ) as [err|t] eqn:Hq.
  { unfold btf.writeTypeDecl in E. apply String.eqb_neq in Hname.
    rewrite Hname in E. run. rewrite Hq in E. discriminate E. }
  destruct (isEnum t) eqn:He.
  - destruct t; try discriminate He.
    unfold btf.writeTypeDecl in E. apply String.eqb_neq in Hname.
    rewrite Hname in E. run. rewrite Hq in E.
    destruct Values as [|ev Values]; cbn [length Nat.eqb] in E.
    + injection E as <-. exists "int32". unfold written, Reset; cbn [w].
      reflexivity.
    + rewrite writeEnumValues_spec in E. injection E as <-.
      exists ("int32" ++ "; const ( "
                ++ enumConstants (Identifier gf) name (ev :: Values) ++ ")").
      unfold written, Reset, enumConstants; cbn [w names Identifier fold_right].
      rewrite append_nil_l, !append_assoc. reflexivity.
  - rewrite (writeTypeDecl_literal name typ t _ Hname Hq He) in E.
    destruct (appends_writeTypeLit t 0 (names gf) (Identifier gf))
      as (r & out & Hout).
    unfold written, Reset in E; cbn [w names Identifier] in E.
    rewrite Hout in E. injection E as _ <-.
    exists out. cbn [w]. now rewrite append_nil_l, !append_assoc.
Qed.

(** X3. Qualifiers are transparent: a type and the type its qualifiers
    wrap are rendered alike by [writeTypeLit] and by [writeType], and are
    declared alike. A name the name table gives to a qualifier node is
    never used. *)
Theorem qualifiers_are_transparent gf name typ t depth :
  skipQualifiers typ = inr t -> name <> "" ->
  writeTypeLit typ depth gf = writeTypeLit t depth gf
  /\ writeType typ depth gf = writeType t depth gf
  /\ TypeDeclaration gf name typ = TypeDeclaration gf name t.
Proof.
  intros Hq Hname. pose proof (skipQualifiers_idempotent _ _ Hq) as Ht.
  split; [|split].
  - rewrite !writeTypeLit_unfold. unfold btf.writeTypeLit_body.
    now rewrite Hq, Ht.
  - unfold btf.writeType, btf.writeType_. now rewrite Hq, Ht.
  - unfold btf.TypeDeclaration, btf.writeTypeDecl.
    apply String.eqb_neq in Hname. now rewrite Hname, Hq, Ht.
Qed.

Lemma named_type_reference_step typ t name depth gf :
  skipQualifiers typ = inr t ->
  names gf !! addr t = Some name -> name <> "" ->
  writeType typ depth gf = (Ok tt, written gf name).
Proof.
  intros Hq Hn Hname. unfold btf.writeType, btf.writeType_. run.
  rewrite Hq, Hn. cbn [from_option id].
  apply String.eqb_neq in Hname. now rewrite Hname.
Qed.

(** X4. A type that has a name in the name table is written by
    [writeType] as that name and nothing else: whatever its kind, be it
    one [writeTypeLit] has no case for, whatever it contains and however
    deep the call is, the call succeeds. *)
Theorem named_type_is_a_reference gf typ t name depth :
  skipQualifiers typ = inr t ->
  names gf !! addr t = Some name -> name <> "" ->
  writeType typ depth gf = (Ok tt, written gf name).
Proof.
  intros Hq Hn Hname. unfold btf.writeType, btf.writeType_. run.
  rewrite Hq, Hn. cbn [from_option id].
  apply String.eqb_neq in Hname. now rewrite Hname.
Qed.

(** X5. A kind [writeTypeLit] has no case for, a Pointer, a Function, a
    forward declaration, or a Variable outside a data section, fails with
    the not-supported sentinel under the context of the type, before
    anything is written for it; [TypeDeclaration] then returns no text. *)
Theorem unsupported_kind gf name typ t depth :
  skipQualifiers typ = inr t -> rendered t = false ->
  name <> "" -> 0 <= depth < maxTypeDepth ->
  writeTypeLit typ depth gf
  = (Err (errTypeNotSupported (addr t) ErrNotSupported), gf)
  /\ fst (TypeDeclaration gf name typ)
     = Ok ("", Some (errTypeNotSupported (addr t) ErrNotSupported))
  /\ Is (errTypeNotSupported (addr t) ErrNotSupported) NotSupported = true.
Proof.
  intros Hq Hr Hname Hd.
  assert (Hlit : forall d gf', 0 <= d < maxTypeDepth ->
            writeTypeLit typ d gf'
            = (Err (errTypeNotSupported (addr t) ErrNotSupported), gf')).
  { intros d gf' Hd'. rewrite writeTypeLit_unfold. unfold btf.writeTypeLit_body.
    destruct (Z.ltb_spec maxTypeDepth (d + 1)); [lia|].
    run. rewrite Hq. destruct t; try discriminate Hr; reflexivity. }
  split; [now apply Hlit|]. split; [|reflexivity].
  unfold btf.TypeDeclaration.
  rewrite (writeTypeDecl_literal name typ t _ Hname Hq)
    by (destruct t; try discriminate Hr; reflexivity).
  pose proof (skipQualifiers_idempotent _ _ Hq) as Ht.
  rewrite writeTypeLit_unfold. unfold btf.writeTypeLit_body.
  destruct (Z.ltb_spec maxTypeDepth (0 + 1)); [lia|].
  run. rewrite Ht. destruct t; try discriminate Hr; reflexivity.
Qed.

(** *** Integers *)

Lemma uint32_small z : 0 <= z < 2 ^ 32 -> uint32 z = z.
Proof. intros H. unfold uint32. now apply Z.mod_small. Qed.

(** X6. An Integer of at most 2^29 - 1 bytes is declared as [bool] when
    it is one byte with the boolean encoding, and otherwise as [int] or
    [uint], by its sign, followed by eight times its size; the character
    flag of the encoding plays no part. *)
Theorem integer_declaration gf name p Size Encoding char :
  name <> "" -> 1 <= maxTypeDepth -> 0 <= Size < 2 ^ 29 ->
  fst (TypeDeclaration gf name (Int p Size Encoding))
  = Ok ("type " ++ name ++ " " ++ intText Size Encoding, None)
  /\ TypeDeclaration gf name
       (Int p Size (mkIntEncoding (IsSigned Encoding) char (IsBool Encoding)))
     = TypeDeclaration gf name (Int p Size Encoding).
Proof.
  intros Hname Hd HSize.
  assert (Hdecl : forall enc,
            writeTypeDecl name (Int p Size enc) (Reset gf)
            = (Ok tt, written (Reset gf)
                        ("type " ++ name ++ " " ++ intText Size enc))).
  { intros enc.
    rewrite (writeTypeDecl_literal name _ (Int p Size enc))
      by (assumption || reflexivity || (apply skipQualifiers_fixed; [lia | reflexivity])).
    rewrite writeTypeLit_unfold. unfold btf.writeTypeLit_body.
    destruct (Z.ltb_spec maxTypeDepth (0 + 1)); [lia|].
    run. rewrite skipQualifiers_fixed by (reflexivity || lia).
    unfold writeIntLit, intText. rewrite uint32_small by lia.
    replace (Size * 8) with (8 * Size) by lia.
    destruct (IsBool enc && (Size =? 1)), (IsSigned enc);
      run; now rewrite written_written, !append_assoc. }
  unfold btf.TypeDeclaration. rewrite !Hdecl. split.
  - cbn [fst]. unfold written, Reset; cbn [w]. reflexivity.
  - reflexivity.
Qed.

(** *** The layout of a structure *)

Lemma writePadding_padding bytes gf :
  writePadding bytes gf = (Ok tt, written gf (padding bytes)).
Proof.
  unfold writePadding, padding. destruct (0 <? bytes); [reflexivity|].
  run. now rewrite written_nil.
Qed.

Lemma writeStructLit_loop_laid_out nm policy depth size text members :
  forall i prevOffset buffer,
  (forall m, In m members ->
     Sizeof (Member.Type_ m) = inr (size m)
     /\ forall buffer',
          writeType (Member.Type_ m) depth (mkGoFormatter buffer' nm policy)
          = (Ok tt, mkGoFormatter (buffer' ++ text m) nm policy)) ->
  0 <= prevOffset -> laid_out size prevOffset members ->
  writeStructLit_loop writeTypeLit depth i prevOffset members
    (mkGoFormatter buffer nm policy)
  = (Ok (end_of size prevOffset members),
     mkGoFormatter (buffer ++ fields policy size text prevOffset members)
       nm policy).
Proof.
  induction members as [|m members IH]; intros i prevOffset buffer Hm Hprev Hl.
  - cbn [btf.writeStructLit_loop fields end_of]. run. now rewrite append_nil_r.
  - destruct Hl as (Hname & Hbits & Halign & Hoff & Hsize & Hend & Hl).
    destruct (Hm m (or_introl eq_refl)) as [HSizeof Htext].
    cbn [btf.writeStructLit_loop fields end_of].
    apply String.eqb_neq in Hname. rewrite Hname.
    apply Z.ltb_ge in Hbits. rewrite Hbits.
    rewrite Halign. cbn [Z.eqb negb]. unfold mbind at 1, M_bind at 1.
    rewrite HSizeof. cbn [try mret M_ret].
    rewrite (uint32_small (size m)) by lia.
    rewrite (uint32_small (Member.OffsetBits m / 8 + size m)) by lia.
    rewrite (uint32_small (Member.OffsetBits m / 8 - prevOffset)) by lia.
    unfold mbind at 1, M_bind at 1. rewrite writePadding_padding.
    unfold mbind at 1, M_bind at 1, identifier.
    unfold mbind at 1, M_bind at 1, WriteString.
    unfold mbind at 1, M_bind at 1, wrapping.
    unfold written; cbn [w names Identifier].
    unfold btf.writeType in Htext. rewrite Htext.
    unfold mbind at 1, M_bind at 1, WriteString, written; cbn [w names Identifier].
    rewrite IH; [|intros m' Hin; apply Hm; now right|lia|exact Hl].
    now rewrite !append_assoc.
Qed.

(** X7. A structure whose members are named, are no bitfields, start on
    a byte, follow one another without overlap, end within the declared
    size, and whose types are sized and rendered, is written as [struct],
    then, for each member in order, the bytes that separate it from the
    one before as a padding field if there are any, the transformed name
    and the type, then the bytes left up to the declared size. No gap
    wraps around. *)
Theorem structure_layout gf Size members depth size text :
  (forall m, In m members ->
     Sizeof (Member.Type_ m) = inr (size m)
     /\ forall buffer,
          writeType (Member.Type_ m) depth
            (mkGoFormatter buffer (names gf) (Identifier gf))
          = (Ok tt, mkGoFormatter (buffer ++ text m) (names gf) (Identifier gf))) ->
  laid_out size 0 members ->
  end_of size 0 members <= Size < 2 ^ 32 ->
  writeStructLit Size members depth gf
  = (Ok tt,
     written gf
       ("struct { " ++ fields (Identifier gf) size text 0 members
          ++ padding (Size - end_of size 0 members) ++ "}")).
Proof.
  intros Hm Hl HSize.
  assert (Hend : forall prevOffset l,
            0 <= prevOffset -> laid_out size prevOffset l ->
            0 <= end_of size prevOffset l).
  { intros prevOffset l. revert prevOffset.
    induction l as [|m l IH]; intros prevOffset H0 H; cbn [end_of]; [exact H0|].
    destruct H as (_ & _ & _ & ? & ? & _ & H). apply IH; [lia | exact H]. }
  specialize (Hend 0 members (Z.le_refl 0) Hl).
  unfold btf.writeStructLit, btf.writeStructLit_. destruct gf as [buffer nm policy].
  cbn [names Identifier] in *.
  unfold mbind at 1, M_bind at 1, WriteString, written. cbn [w names Identifier].
  unfold mbind at 1, M_bind at 1.
  rewrite (writeStructLit_loop_laid_out nm policy depth size text members)
    by (assumption || lia).
  unfold mbind at 1, M_bind at 1. rewrite writePadding_padding.
  rewrite uint32_small by lia.
  unfold written. cbn [w names Identifier]. now rewrite !append_assoc.
Qed.

(** *** The layout of a data section *)

Lemma writeDatasecLit_loop_laid_out nm policy depth text vars :
  forall i prevOffset buffer,
  (forall typ, In typ (global_types vars) ->
     forall buffer',
       writeType typ depth (mkGoFormatter buffer' nm policy)
       = (Ok tt, mkGoFormatter (buffer' ++ text typ) nm policy)) ->
  0 <= prevOffset -> section_laid_out prevOffset vars ->
  writeDatasecLit_loop writeTypeLit depth i prevOffset vars
    (mkGoFormatter buffer nm policy)
  = (Ok (end_of_variables prevOffset vars),
     mkGoFormatter (buffer ++ variables policy text prevOffset vars) nm policy).
Proof.
  induction vars as [|vsi vars IH]; intros i prevOffset buffer Ht Hprev Hl.
  - cbn [btf.writeDatasecLit_loop variables end_of_variables]. run.
    now rewrite append_nil_r.
  - cbn [btf.writeDatasecLit_loop variables end_of_variables
         section_laid_out global_types] in *.
    destruct (VarSecinfo.Type_ vsi); try contradiction.
    destruct Linkage; try (now apply IH).
    destruct Hl as (Hname & Hoff & Hsize & Hend & Hl).
    apply String.eqb_neq in Hname. rewrite Hname.
    rewrite (uint32_small (VarSecinfo.Offset vsi + VarSecinfo.Size vsi)) by lia.
    rewrite (uint32_small (VarSecinfo.Offset vsi - prevOffset)) by lia.
    unfold mbind at 1, M_bind at 1. rewrite writePadding_padding.
    unfold mbind at 1, M_bind at 1, identifier.
    unfold mbind at 1, M_bind at 1, WriteString.
    unfold mbind at 1, M_bind at 1, wrapping.
    unfold written; cbn [w names Identifier].
    pose proof (Ht t (or_introl eq_refl)) as Htext.
    unfold btf.writeType in Htext. rewrite Htext.
    unfold mbind at 1, M_bind at 1, WriteString, written; cbn [w names Identifier].
    rewrite IH; [|intros t' Hin; apply Ht; now right|lia|exact Hl].
    now rewrite !append_assoc.
Qed.

(** X8. A data section whose entries are Variables, whose Global
    variables are named, follow one another without overlap and end within
    the size of the section, and have types that are rendered, is written
    as [struct] with one field per Global variable, in order, separated by
    the bytes between them and followed by the bytes left; the size of a
    variable is the one its entry gives, and the other variables are not
    written. *)
Theorem section_layout gf Size Vars depth text :
  (forall typ, In typ (global_types Vars) ->
     forall buffer,
       writeType typ depth (mkGoFormatter buffer (names gf) (Identifier gf))
       = (Ok tt, mkGoFormatter (buffer ++ text typ) (names gf) (Identifier gf))) ->
  section_laid_out 0 Vars ->
  end_of_variables 0 Vars <= Size < 2 ^ 32 ->
  writeDatasecLit Size Vars depth gf
  = (Ok tt,
     written gf
       ("struct { " ++ variables (Identifier gf) text 0 Vars
          ++ padding (Size - end_of_variables 0 Vars) ++ "}")).
Proof.
  intros Ht Hl HSize.
  assert (Hend : forall prevOffset l,
            0 <= prevOffset -> section_laid_out prevOffset l ->
            0 <= end_of_variables prevOffset l).
  { intros prevOffset l. revert prevOffset.
    induction l as [|vsi l IH]; intros prevOffset H0 H;
      cbn [end_of_variables section_laid_out] in *; [exact H0|].
    destruct (VarSecinfo.Type_ vsi); try contradiction.
    destruct Linkage; try (now apply IH).
    destruct H as (_ & ? & ? & _ & H). apply IH; [lia | exact H]. }
  specialize (Hend 0 Vars (Z.le_refl 0) Hl).
  unfold btf.writeDatasecLit, btf.writeDatasecLit_.
  destruct gf as [buffer nm policy]. cbn [names Identifier] in *.
  unfold mbind at 1, M_bind at 1, WriteString, written. cbn [w names Identifier].
  unfold mbind at 1, M_bind at 1.
  rewrite (writeDatasecLit_loop_laid_out nm policy depth text Vars)
    by (assumption || lia).
  unfold mbind at 1, M_bind at 1. rewrite writePadding_padding.
  rewrite uint32_small by lia.
  unfold written. cbn [w names Identifier]. now rewrite !append_assoc.
Qed.

(** *** One turn of the loops *)

Section Turn.

Variable f : Typ -> Z -> M unit.
Variable depth : Z.

Lemma writeStructLit_loop_cons m members i prevOffset gf :
  writeStructLit_loop f depth i prevOffset (m :: members) gf
  = if String.eqb (Member.Name m) "" then (Err (errAnonymousField i), gf)
    else if 0 <? Member.BitfieldSize m then (Err (errBitfield i), gf)
    else if negb (Member.OffsetBits m mod 8 =? 0)
    then (Err (errUnsupportedOffset i (Member.OffsetBits m)), gf)
    else
      match Sizeof (Member.Type_ m) with
      | inl err => (Err (errInField i err), gf)
      | inr size =>
          let offset := Member.OffsetBits m / 8 in
          match writeType_ f (Member.Type_ m) depth
                  (written (written gf (padding (uint32 (offset - prevOffset))))
                     (Identifier gf (Member.Name m) ++ " ")) with
          | (Ok _, gf') =>
              writeStructLit_loop f depth (S i)
                (uint32 (offset + uint32 size)) members (written gf' "; ")
          | (Err err, gf') => (Err (errInField i err), gf')
          | (Panic p, gf') => (Panic p, gf')
          | (OutOfFuel, gf') => (OutOfFuel, gf')
          end
      end.
Proof.
  cbn [btf.writeStructLit_loop].
  destruct (String.eqb _ _); [reflexivity|].
  destruct (0 <? Member.BitfieldSize m); [reflexivity|].
  destruct (negb _); [reflexivity|].
  unfold mbind at 1, M_bind at 1.
  destruct (Sizeof _) as [err|size]; [reflexivity|]. cbn [try mret M_ret].
  unfold mbind at 1, M_bind at 1. rewrite writePadding_padding.
  run. now destruct (writeType_ f _ _ _) as [[[]| | |] gf'].
Qed.

Lemma writeDatasecLit_loop_cons vsi vars i prevOffset gf :
  writeDatasecLit_loop f depth i prevOffset (vsi :: vars) gf
  = match VarSecinfo.Type_ vsi with
    | Var _ name typ GlobalVar =>
        if String.eqb name "" then (Err (errEmptyName i), gf)
        else
          match writeType_ f typ depth
                  (written
                     (written gf
                        (padding (uint32 (VarSecinfo.Offset vsi - prevOffset))))
                     (Identifier gf name ++ " ")) with
          | (Ok _, gf') =>
              writeDatasecLit_loop f depth (S i)
                (uint32 (VarSecinfo.Offset vsi + VarSecinfo.Size vsi)) vars
                (written gf' "; ")
          | (Err err, gf') => (Err (errInVariable i err), gf')
          | (Panic p, gf') => (Panic p, gf')
          | (OutOfFuel, gf') => (OutOfFuel, gf')
          end
    | Var _ _ _ _ => writeDatasecLit_loop f depth (S i) prevOffset vars gf
    | other => (Panic (interfaceConversion (addr other)), gf)
    end.
Proof.
  cbn [btf.writeDatasecLit_loop].
  destruct (VarSecinfo.Type_ vsi); try reflexivity.
  destruct Linkage; try reflexivity.
  destruct (String.eqb _ _); [reflexivity|].
  unfold mbind at 1, M_bind at 1. rewrite writePadding_padding.
  run. now destruct (writeType_ f _ _ _) as [[[]| | |] gf'].
Qed.

(** The outcome of [writeStructLit] is that of its loop. *)
Lemma writeStructLit_outcome size members gf :
  writeStructLit_ f size members depth gf
  = match writeStructLit_loop f depth 0 0 members (written gf "struct { ") with
    | (Ok prevOffset, gf') =>
        (Ok tt, written (written gf' (padding (uint32 (size - prevOffset)))) "}")
    | (Err err, gf') => (Err err, gf')
    | (Panic p, gf') => (Panic p, gf')
    | (OutOfFuel, gf') => (OutOfFuel, gf')
    end.
Proof.
  unfold btf.writeStructLit_. unfold mbind at 1, M_bind at 1, WriteString.
  unfold mbind at 1, M_bind at 1.
  destruct (writeStructLit_loop f depth 0 0 members _) as [[a| | |] gf'];
    try reflexivity.
  unfold mbind at 1, M_bind at 1. now rewrite writePadding_padding.
Qed.

Lemma writeDatasecLit_outcome size vars gf :
  writeDatasecLit_ f size vars depth gf
  = match writeDatasecLit_loop f depth 0 0 vars (written gf "struct { ") with
    | (Ok prevOffset, gf') =>
        (Ok tt, written (written gf' (padding (uint32 (size - prevOffset)))) "}")
    | (Err err, gf') => (Err err, gf')
    | (Panic p, gf') => (Panic p, gf')
    | (OutOfFuel, gf') => (OutOfFuel, gf')
    end.
Proof.
  unfold btf.writeDatasecLit_. unfold mbind at 1, M_bind at 1, WriteString.
  unfold mbind at 1, M_bind at 1.
  destruct (writeDatasecLit_loop f depth 0 0 vars _) as [[a| | |] gf'];
    try reflexivity.
  unfold mbind at 1, M_bind at 1. now rewrite writePadding_padding.
Qed.

End Turn.

(** *** What an outcome says of the members *)









(** *** Panics *)

Lemma sound_Struct p Size Members :
  sound (Struct p Size Members) = forallb sound_member Members.
Proof. induction Members as [|m l IH]; [reflexivity|]. cbn in *. now rewrite IH. Qed.

Lemma sound_Datasec p Size Vars :
  sound (Datasec p Size Vars) = forallb sound_entry Vars.
Proof. induction Vars as [|v l IH]; [reflexivity|]. cbn in *. now rewrite IH. Qed.

Lemma sound_skipQualifiers_loop n : forall typ t,
  skipQualifiers_loop n typ = inr t -> sound typ = true -> sound t = true.
Proof.
  induction n as [|n IH]; intros typ t H Hs; [discriminate H|].
  destruct typ; cbn [skipQualifiers_loop] in H;
    try (injection H as <-; exact Hs); exact (IH _ _ H Hs).
Qed.

Section Quiet.

Variable f : Typ -> Z -> M unit.
Variable depth : Z.
Hypothesis quiet_f : forall typ, sound typ = true -> quiet (f typ depth).

Lemma quiet_writeType typ : sound typ = true -> quiet (writeType_ f typ depth).
Proof.
  intros Hs gf pn. unfold btf.writeType_. run.
  destruct (skipQualifiers typ) as [err|t] eqn:Hq; [discriminate|].
  destruct (negb _); [discriminate|].
  apply quiet_f. exact (sound_skipQualifiers_loop _ _ _ Hq Hs).
Qed.

Lemma quiet_writeStructLit_loop members : forall i prevOffset,
  forallb sound_member members = true ->
  quiet (writeStructLit_loop f depth i prevOffset members).
Proof.
  induction members as [|m members IH]; intros i prevOffset Hs gf pn;
    [discriminate|].
  cbn [forallb] in Hs. apply andb_prop in Hs as [Hm Hs].
  rewrite writeStructLit_loop_cons.
  destruct (String.eqb _ _); [discriminate|].
  destruct (0 <? _); [discriminate|].
  destruct (negb _); [discriminate|].
  destruct (Sizeof _); [discriminate|]. cbv zeta.
  assert (Hq : sound (Member.Type_ m) = true) by (now destruct m).
  pose proof (quiet_writeType _ Hq) as Hw.
  match goal with
  | |- context [writeType_ f ?t depth ?g] =>
      specialize (Hw g pn); destruct (writeType_ f t depth g) as [[[]| | |] gf']
  end; cbn [fst] in *; try discriminate; [now apply IH | congruence].
Qed.

Lemma quiet_writeDatasecLit_loop vars : forall i prevOffset,
  forallb sound_entry vars = true ->
  quiet (writeDatasecLit_loop f depth i prevOffset vars).
Proof.
  induction vars as [|vsi vars IH]; intros i prevOffset Hs gf pn;
    [discriminate|].
  cbn [forallb] in Hs. apply andb_prop in Hs as [Hv Hs].
  rewrite writeDatasecLit_loop_cons.
  destruct vsi as [t Offset Size']. cbn [VarSecinfo.Type_ sound_entry] in *.
  destruct t; try discriminate Hv.
  destruct Linkage; try (now apply IH).
  destruct (String.eqb _ _); [discriminate|].
  pose proof (quiet_writeType _ Hv) as Hw.
  match goal with
  | |- context [writeType_ f ?t depth ?g] =>
      specialize (Hw g pn); destruct (writeType_ f t depth g) as [[[]| | |] gf']
  end; cbn [fst] in *; try discriminate; [now apply IH | congruence].
Qed.

End Quiet.

Lemma quiet_wrapping A wrap (m : M A) : quiet m -> quiet (wrapping wrap m).
Proof.
  intros Hm gf pn. specialize (Hm gf pn). unfold wrapping.
  destruct (m gf) as [[a| | |] gf']; cbn [fst] in *; congruence.
Qed.

Lemma quiet_writeTypeLit_body f typ depth :
  (forall t, sound t = true -> quiet (f t (depth + 1))) ->
  sound typ = true -> quiet (writeTypeLit_body f typ depth).
Proof.
  intros Hf Hs gf pn. unfold btf.writeTypeLit_body.
  destruct (maxTypeDepth <? depth + 1); [discriminate|].
  unfold mbind at 1, M_bind at 1.
  destruct (skipQualifiers typ) as [err|t] eqn:Hq; [discriminate|].
  pose proof (sound_skipQualifiers_loop _ _ _ Hq Hs) as Ht.
  cbn [try mret M_ret].
  destruct t; try discriminate.
  - unfold writeIntLit. destruct (_ && _); [discriminate|].
    destruct (IsSigned _); discriminate.
  - unfold mbind at 1, M_bind at 1, WriteString.
    apply quiet_wrapping, (quiet_writeType f (depth + 1) Hf). exact Ht.
  - rewrite sound_Struct in Ht. apply quiet_wrapping. intros gf0 pn0.
    rewrite writeStructLit_outcome.
    pose proof (quiet_writeStructLit_loop f (depth + 1) Hf Members 0%nat 0 Ht
                  (written gf0 "struct { ") pn0) as Hl.
    destruct (writeStructLit_loop f (depth + 1) 0 0 Members _) as [[a| | |] gf1];
      cbn [fst] in *; congruence.
  - destruct Members as [|m Members]; [discriminate Ht|].
    unfold mbind at 1, M_bind at 1, slice_to.
    change (firstn 1 (m :: Members)) with [m]. cbn [length Nat.leb mret M_ret].
    apply quiet_wrapping. intros gf0 pn0. rewrite writeStructLit_outcome.
    assert (Hm : forallb sound_member [m] = true)
      by (cbn [forallb]; cbn [sound] in Ht; now rewrite Ht).
    pose proof (quiet_writeStructLit_loop f (depth + 1) Hf [m] 0%nat 0 Hm
                  (written gf0 "struct { ") pn0) as Hl.
    destruct (writeStructLit_loop f (depth + 1) 0 0 [m] _) as [[a| | |] gf1];
      cbn [fst] in *; congruence.
  - apply quiet_wrapping, (quiet_writeType f (depth + 1) Hf). exact Ht.
  - rewrite sound_Datasec in Ht. apply quiet_wrapping. intros gf0 pn0.
    rewrite writeDatasecLit_outcome.
    pose proof (quiet_writeDatasecLit_loop f (depth + 1) Hf Vars 0%nat 0 Ht
                  (written gf0 "struct { ") pn0) as Hl.
    destruct (writeDatasecLit_loop f (depth + 1) 0 0 Vars _) as [[a| | |] gf1];
      cbn [fst] in *; congruence.
Qed.

Lemma quiet_writeTypeLit_fuel : forall fuel typ depth,
  sound typ = true -> quiet (writeTypeLit_fuel fuel typ depth).
Proof.
  induction fuel as [|fuel IH]; intros typ depth Hs; [discriminate|].
  cbn [btf.writeTypeLit_fuel]. apply quiet_writeTypeLit_body; [|exact Hs].
  intros t Ht. now apply IH.
Qed.

(** X13. There are no panics but those of an empty Union and of a
    section entry that holds no Variable: on a type graph in which every
    Union has a first member and every section entry holds a Variable,
    [writeTypeLit] and [TypeDeclaration] return, a text or an error. *)
Theorem sound_graph_does_not_panic gf name typ depth :
  sound typ = true ->
  (forall pn, fst (writeTypeLit typ depth gf) <> Panic pn)
  /\ ((exists text, fst (TypeDeclaration gf name typ) = Ok (text, None))
      \/ exists err, fst (TypeDeclaration gf name typ) = Ok ("", Some err)).
Proof.
  intros Hs. split.
  - intros pn. now apply quiet_writeTypeLit_fuel.
  - assert (Hquiet : forall pn, fst (writeTypeDecl name typ (Reset gf)) <> Panic pn).
    { intros pn. unfold btf.writeTypeDecl.
      destruct (String.eqb name ""); [discriminate|].
      unfold mbind at 1, M_bind at 1.
      destruct (skipQualifiers typ) as [err|t] eqn:Hq; [discriminate|].
      pose proof (sound_skipQualifiers_loop _ _ _ Hq Hs) as Ht.
      cbn [try mret M_ret].
      assert (Hlit : fst ((WriteString ("type " ++ name ++ " ");;
                           writeTypeLit t 0) (Reset gf)) <> Panic pn).
      { unfold mbind, M_bind, WriteString. now apply quiet_writeTypeLit_fuel. }
      destruct t; try exact Hlit.
      unfold mbind at 1, M_bind at 1, WriteString.
      destruct (length Values =? 0)%nat; [discriminate|].
      unfold mbind at 1, M_bind at 1. unfold mbind at 1, M_bind at 1.
      rewrite writeEnumValues_spec. discriminate. }
    pose proof (total_writeTypeDecl name typ (Reset gf)) as Htotal.
    unfold btf.TypeDeclaration.
    destruct (writeTypeDecl name typ (Reset gf)) as [[[]|err|pn|] gf1];
      cbn [fst] in *.
    + left. eauto.
    + right. eauto.
    + now destruct (Hquiet pn).
    + now destruct Htotal.
Qed.

(** *** The depth only restricts *)

Section Shallower.

Variables F G : Typ -> Z -> M unit.
Variables d d' : Z.
Hypothesis FG : forall typ gf r gf',
  F typ d gf = (r, gf') -> settled r -> G typ d' gf = (r, gf').

Lemma writeType_shallower typ gf r gf' :
  writeType_ F typ d gf = (r, gf') -> settled r ->
  writeType_ G typ d' gf = (r, gf').
Proof.
  unfold btf.writeType_. run.
  destruct (skipQualifiers typ) as [err|t]; [trivial|].
  destruct (negb _); [trivial | apply FG].
Qed.

Lemma writeStructLit_loop_shallower members : forall i prevOffset gf r gf',
  writeStructLit_loop F d i prevOffset members gf = (r, gf') -> settled r ->
  writeStructLit_loop G d' i prevOffset members gf = (r, gf').
Proof.
  induction members as [|m members IH]; intros i prevOffset gf r gf' H Hr;
    [exact H|].
  rewrite writeStructLit_loop_cons in *.
  destruct (String.eqb _ _); [exact H|].
  destruct (0 <? _); [exact H|].
  destruct (negb _); [exact H|].
  destruct (Sizeof _); [exact H|]. cbv zeta in *.
  destruct (writeType_ F (Member.Type_ m) d _) as [[[]|err|pn|] gf1] eqn:E.
  - rewrite (writeType_shallower _ _ _ _ E I). now apply IH.
  - injection H as <- <-. now rewrite (writeType_shallower _ _ _ _ E Hr).
  - injection H as <- <-. now rewrite (writeType_shallower _ _ _ _ E I).
  - injection H as <- <-. destruct Hr.
Qed.

Lemma writeStructLit_shallower size members gf r gf' :
  writeStructLit_ F size members d gf = (r, gf') -> settled r ->
  writeStructLit_ G size members d' gf = (r, gf').
Proof.
  rewrite !writeStructLit_outcome. intros H Hr.
  destruct (writeStructLit_loop F d 0 0 members _) as [[a|err|pn|] gf1] eqn:E.
  - now rewrite (writeStructLit_loop_shallower _ _ _ _ _ _ E I).
  - injection H as <- <-. now rewrite (writeStructLit_loop_shallower _ _ _ _ _ _ E Hr).
  - injection H as <- <-. now rewrite (writeStructLit_loop_shallower _ _ _ _ _ _ E I).
  - injection H as <- <-. destruct Hr.
Qed.

Lemma writeDatasecLit_loop_shallower vars : forall i prevOffset gf r gf',
  writeDatasecLit_loop F d i prevOffset vars gf = (r, gf') -> settled r ->
  writeDatasecLit_loop G d' i prevOffset vars gf = (r, gf').
Proof.
  induction vars as [|vsi vars IH]; intros i prevOffset gf r gf' H Hr;
    [exact H|].
  rewrite writeDatasecLit_loop_cons in *.
  destruct (VarSecinfo.Type_ vsi); try exact H.
  destruct Linkage; try (now apply IH).
  destruct (String.eqb _ _); [exact H|].
  destruct (writeType_ F t d _) as [[[]|err|pn|] gf1] eqn:E.
  - rewrite (writeType_shallower _ _ _ _ E I). now apply IH.
  - injection H as <- <-. now rewrite (writeType_shallower _ _ _ _ E Hr).
  - injection H as <- <-. now rewrite (writeType_shallower _ _ _ _ E I).
  - injection H as <- <-. destruct Hr.
Qed.

Lemma writeDatasecLit_shallower size vars gf r gf' :
  writeDatasecLit_ F size vars d gf = (r, gf') -> settled r ->
  writeDatasecLit_ G size vars d' gf = (r, gf').
Proof.
  rewrite !writeDatasecLit_outcome. intros H Hr.
  destruct (writeDatasecLit_loop F d 0 0 vars _) as [[a|err|pn|] gf1] eqn:E.
  - now rewrite (writeDatasecLit_loop_shallower _ _ _ _ _ _ E I).
  - injection H as <- <-. now rewrite (writeDatasecLit_loop_shallower _ _ _ _ _ _ E Hr).
  - injection H as <- <-. now rewrite (writeDatasecLit_loop_shallower _ _ _ _ _ _ E I).
  - injection H as <- <-. destruct Hr.
Qed.

End Shallower.

Lemma wrapping_shallower (m m' : M unit) typ gf r gf' :
  (forall r0 gf0, m gf = (r0, gf0) -> settled r0 -> m' gf = (r0, gf0)) ->
  wrapping (errInType typ) m gf = (r, gf') -> settled r ->
  wrapping (errInType typ) m' gf = (r, gf').
Proof.
  unfold wrapping. intros Hm H Hr.
  destruct (m gf) as [[[]|err|pn|] gf1] eqn:E; injection H as <- <-.
  - now rewrite (Hm _ _ eq_refl I).
  - now rewrite (Hm _ _ eq_refl Hr).
  - now rewrite (Hm _ _ eq_refl I).
  - destruct Hr.
Qed.

Lemma writeTypeLit_body_shallower F G typ d d' gf r gf' :
  d' <= d ->
  (forall t g r0 g', F t (d + 1) g = (r0, g') -> settled r0 ->
                     G t (d' + 1) g = (r0, g')) ->
  writeTypeLit_body F typ d gf = (r, gf') -> settled r ->
  writeTypeLit_body G typ d' gf = (r, gf').
Proof.
  intros Hd FG. unfold btf.writeTypeLit_body.
  destruct (Z.ltb_spec maxTypeDepth (d + 1)) as [Hdeep|Hdeep].
  { intros H Hr. injection H as <- <-. discriminate Hr. }
  destruct (Z.ltb_spec maxTypeDepth (d' + 1)); [lia|].
  cbv [mbind M_bind try mret M_ret fail raise WriteString slice_to].
  destruct (skipQualifiers typ) as [err|t]; [trivial|].
  destruct t; trivial.
  - apply wrapping_shallower.
    intros r0 gf0. apply (writeType_shallower F G (d + 1) (d' + 1) FG).
  - apply wrapping_shallower.
    intros r0 gf0. apply (writeStructLit_shallower F G (d + 1) (d' + 1) FG).
  - destruct (1 <=? length Members)%nat; [|trivial].
    apply wrapping_shallower.
    intros r0 gf0. apply (writeStructLit_shallower F G (d + 1) (d' + 1) FG).
  - apply wrapping_shallower.
    intros r0 gf0. apply (writeType_shallower F G (d + 1) (d' + 1) FG).
  - apply wrapping_shallower.
    intros r0 gf0. apply (writeDatasecLit_shallower F G (d + 1) (d' + 1) FG).
Qed.

(** X14. The depth a literal is entered at matters through the nesting
    bound only: an outcome of [writeTypeLit] that is not the
    nested-too-deep error, alone or under a context, is the outcome of
    the same call entered at any smaller depth, with the same text
    written. *)
Theorem shallower_is_the_same typ d d' gf r gf' :
  d' <= d ->
  writeTypeLit typ d gf = (r, gf') -> settled r ->
  writeTypeLit typ d' gf = (r, gf').
Proof.
  assert (H : forall (n : nat) typ d d' gf r gf',
             Z.to_nat (maxTypeDepth - d) = n -> d' <= d ->
             writeTypeLit typ d gf = (r, gf') -> settled r ->
             writeTypeLit typ d' gf = (r, gf')).
  { clear. induction n as [|n IH]; intros typ d d' gf r gf' Hn Hd H Hr.
    - rewrite writeTypeLit_too_deep in H by lia.
      injection H as <- <-. discriminate Hr.
    - rewrite writeTypeLit_unfold in *.
      apply (writeTypeLit_body_shallower writeTypeLit writeTypeLit typ d d');
        try assumption.
      intros t g r0 g'. apply IH; lia. }
  intros Hd. now apply (H _ typ d d' gf r gf' eq_refl).
Qed.

(** *** Arrays of arrays *)

Lemma writeType_arrays nm policy text elem dims : forall depth buffer,
  Forall (fun dim : loc * Z => nm !! fst dim = None) dims ->
  0 <= depth -> depth + Z.of_nat (length dims) <= maxTypeDepth ->
  (forall buffer',
     writeType elem (depth + Z.of_nat (length dims))
       (mkGoFormatter buffer' nm policy)
     = (Ok tt, mkGoFormatter (buffer' ++ text) nm policy)) ->
  writeType (arrays dims elem) depth (mkGoFormatter buffer nm policy)
  = (Ok tt, mkGoFormatter (buffer ++ dimensions dims ++ text) nm policy).
Proof.
  induction dims as [|[p n] dims IH]; intros depth buffer Hnames H0 Hd Helem.
  - cbn [arrays dimensions fold_right length] in *.
    rewrite Z.add_0_r in Helem. now rewrite Helem.
  - apply Forall_cons in Hnames as [Hp Hnames]. cbn [fst snd] in Hp.
    cbn [arrays dimensions fold_right length fst snd] in *.
    fold (arrays dims elem). fold (dimensions dims).
    unfold btf.writeType, btf.writeType_. run.
    rewrite skipQualifiers_fixed by (reflexivity || lia).
    cbn [addr names]. rewrite Hp. cbn [from_option String.eqb negb].
    rewrite writeTypeLit_unfold. unfold btf.writeTypeLit_body.
    destruct (Z.ltb_spec maxTypeDepth (depth + 1)); [lia|].
    run. rewrite skipQualifiers_fixed by (reflexivity || lia).
    unfold written; cbn [w names Identifier].
    pose proof (IH (depth + 1) (buffer ++ "[" ++ fmtd n ++ "]") Hnames) as E.
    unfold btf.writeType in E. rewrite E; [|lia|lia|].
    + now rewrite !append_assoc.
    + intros buffer'.
      replace (depth + 1 + Z.of_nat (length dims))
        with (depth + Z.of_nat (S (length dims))) by lia.
      apply Helem.
Qed.

(** X15. An array of arrays is written with its dimensions in brackets,
    the outermost first, before the element type: each dimension that has
    no name in the name table takes one level of nesting, and the element
    is rendered at the depth under the innermost. *)
Theorem arrays_of_arrays gf dims elem text depth :
  Forall (fun dim : loc * Z => names gf !! fst dim = None) dims ->
  0 <= depth -> depth + Z.of_nat (length dims) <= maxTypeDepth ->
  (forall buffer,
     writeType elem (depth + Z.of_nat (length dims))
       (mkGoFormatter buffer (names gf) (Identifier gf))
     = (Ok tt, mkGoFormatter (buffer ++ text) (names gf) (Identifier gf))) ->
  writeType (arrays dims elem) depth gf
  = (Ok tt, written gf (dimensions dims ++ text)).
Proof.
  destruct gf as [buffer nm policy]. cbn [names Identifier].
  intros Hnames H0 Hd Helem.
  now apply (writeType_arrays nm policy text elem dims).
Qed.

(** *** Aliases *)

(** X16. The declaration of a Typedef of a type that has a name in the
    name table is the alias of the declared name to that name: the type
    behind the name is not rendered, whatever it is. *)
Theorem alias_of_a_named_type gf name p typ t target :
  name <> "" -> 1 <= maxTypeDepth ->
  skipQualifiers typ = inr t ->
  names gf !! addr t = Some target -> target <> "" ->
  TypeDeclaration gf name (Typedef p typ)
  = (Ok ("type " ++ name ++ " " ++ target, None),
     written (Reset gf) ("type " ++ name ++ " " ++ target)).
Proof.
  intros Hname Hd Hq Hn Htarget. unfold btf.TypeDeclaration.
  rewrite (writeTypeDecl_literal name _ (Typedef p typ))
    by (assumption || reflexivity || (apply skipQualifiers_fixed; [lia | reflexivity])).
  rewrite writeTypeLit_unfold. unfold btf.writeTypeLit_body.
  destruct (Z.ltb_spec maxTypeDepth (0 + 1)); [lia|].
  run. rewrite skipQualifiers_fixed by (reflexivity || lia).
  pose proof (named_type_reference_step typ t target (0 + 1)
                (written (Reset gf) ("type " ++ name ++ " ")) Hq Hn Htarget) as E.
  unfold btf.writeType in E. rewrite E.
  rewrite written_written. unfold written, Reset; cbn [w].
  now rewrite append_nil_l, !append_assoc.
Qed.

End Verification.

(** ** The statements at concrete inputs *)

Import Example.

Abbreviation writeTypeLit32 := (writeTypeLit maxTypeDepth Sizeof).

(** Settles a side condition on a concrete input. *)
Ltac concrete :=
  solve [ reflexivity | simpl; lia | vm_compute; reflexivity
        | let E := fresh in intros E; vm_compute in E; discriminate E
        | intro; apply lookup_empty ].

(** C1, refuted as stated: [b] overlaps [a] in [overlapping], and
    [truncated] ends before its member does; both are declared, with a
    padding field of the gap taken modulo 2^32, and no error. *)
Lemma overlap_is_not_an_error :
  declare ∅ "T" overlapping
  = Ok ("type T struct { a int32; _ [4294967294]byte; b int32; _ [2]byte; }", None)
  /\ declare ∅ "T" truncated
     = Ok ("type T struct { a int32; _ [4294967294]byte; }", None).
Proof. split; vm_compute; reflexivity. Qed.

Lemma overlap_wraps_around_witness :
  (Member.Name b <> "" /\ Member.BitfieldSize b <= 0
   /\ Member.OffsetBits b mod 8 = 0
   /\ Sizeof (Member.Type_ b) = inr 4
   /\ 0 <= Member.OffsetBits b / 8 < 4 /\ 4 < 2 ^ 32
   /\ writeStructLit_loop maxTypeDepth Sizeof writeTypeLit32 1 0 0 [a]
        (written plain "struct { ")
      = (Ok 4, written plain "struct { a int32; ")
   /\ 0 <= 2 < 4)
  /\ writeStructLit_loop maxTypeDepth Sizeof writeTypeLit32 1 1 4 [b] plain
     = (Ok 6, written plain "_ [4294967294]byte; b int32; ")
  /\ writeStructLit maxTypeDepth Sizeof 2 [a] 1 plain
     = (Ok tt, written plain "struct { a int32; _ [4294967294]byte; }").
Proof.
  assert (H : Member.Name b <> "" /\ Member.BitfieldSize b <= 0
              /\ Member.OffsetBits b mod 8 = 0
              /\ Sizeof (Member.Type_ b) = inr 4
              /\ 0 <= Member.OffsetBits b / 8 < 4 /\ 4 < 2 ^ 32
              /\ writeStructLit_loop maxTypeDepth Sizeof writeTypeLit32 1 0 0 [a]
                   (written plain "struct { ")
                 = (Ok 4, written plain "struct { a int32; ")
              /\ 0 <= 2 < 4)
    by (repeat split; concrete).
  split; [exact H|].
  destruct H as (H1 & H2 & H3 & H4 & H5 & H6 & H7 & H8).
  exact (overlap_wraps_around maxTypeDepth Sizeof plain 1 1%nat 4 b [] 4 2 [a] 4
           (written plain "struct { a int32; ") H1 H2 H3 H4 H5 H6 H7 H8 H6).
Defined.

(** C2, refuted as stated: the Enumeration at 5 has a name in the name
    table, and as a member and as an element it is written by that name,
    not as [int32]. *)
Lemma named_enum_is_a_reference :
  fst (TypeDeclaration maxTypeDepth Sizeof naming "T" paint)
  = Ok ("type T struct { c Color; }", None)
  /\ fst (TypeDeclaration maxTypeDepth Sizeof naming "T" palette)
     = Ok ("type T [2]Color", None).
Proof. split; vm_compute; reflexivity. Qed.

Lemma enum_literal_witness :
  (skipQualifiers maxTypeDepth (Const 7 Color) = inr Color /\ 1 < maxTypeDepth)
  /\ writeTypeLit32 (Const 7 Color) 1 naming = (Ok tt, written naming "int32")
  /\ writeType maxTypeDepth Sizeof (Const 7 Color) 1 naming
     = (Ok tt, written naming "Color").
Proof.
  assert (H : skipQualifiers maxTypeDepth (Const 7 Color) = inr Color
              /\ 1 < maxTypeDepth) by (repeat split; concrete).
  split; [exact H|]. destruct H as [H1 H2].
  exact (enum_literal maxTypeDepth Sizeof naming (Const 7 Color) 5
           [mkEnumValue "Red" 0; mkEnumValue "Blue" 1] 1 H1 H2).
Defined.

Lemma enum_declaration_witness :
  ("Color" <> "" /\ skipQualifiers maxTypeDepth (Const 7 Color) = inr Color)
  /\ TypeDeclaration maxTypeDepth Sizeof plain "Color" (Const 7 Color)
     = (Ok ("type Color int32; const ( ColorRed Color = 0; ColorBlue Color = 1; )",
            None),
        written plain
          "type Color int32; const ( ColorRed Color = 0; ColorBlue Color = 1; )").
Proof.
  assert (H : "Color" <> ""
              /\ skipQualifiers maxTypeDepth (Const 7 Color) = inr Color)
    by (repeat split; concrete).
  split; [exact H|]. destruct H as [H1 H2].
  exact (enum_declaration maxTypeDepth Sizeof plain "Color" (Const 7 Color) 5
           [mkEnumValue "Red" 0; mkEnumValue "Blue" 1] H1 H2).
Defined.




Lemma datasec_entry_must_be_a_variable_witness :
  (isVar (VarSecinfo.Type_ stray) = false
   /\ writeDatasecLit_loop maxTypeDepth writeTypeLit32 1 0 0 [x; y]
        (written plain "struct { ")
      = (Ok 4, written plain "struct { x int32; "))
  /\ writeDatasecLit maxTypeDepth Sizeof 12 ([x; y] ++ stray :: []) 1 plain
     = (Panic (interfaceConversion (addr (VarSecinfo.Type_ stray))),
        written plain "struct { x int32; ").
Proof.
  assert (H : isVar (VarSecinfo.Type_ stray) = false
              /\ writeDatasecLit_loop maxTypeDepth writeTypeLit32 1 0 0 [x; y]
                   (written plain "struct { ")
                 = (Ok 4, written plain "struct { x int32; "))
    by (repeat split; concrete).
  split; [exact H|]. destruct H as [H1 H2].
  exact (datasec_entry_must_be_a_variable maxTypeDepth Sizeof plain 12 [x; y]
           stray [] 1 4 (written plain "struct { x int32; ") H1 H2).
Defined.

(** ** The examples of the spec, run *)

Example declare_bool :
  declare ∅ "B" (Int 1 1 (mkIntEncoding false false true))
  = Ok ("type B bool", None).
Proof. vm_compute; reflexivity. Qed.

Example declare_uint64 :
  declare ∅ "U" (Int 1 8 (mkIntEncoding false false false))
  = Ok ("type U uint64", None).
Proof. vm_compute; reflexivity. Qed.

Example declare_Color :
  declare ∅ "Color" Color
  = Ok ("type Color int32; const ( ColorRed Color = 0; ColorBlue Color = 1; )",
        None).
Proof. vm_compute; reflexivity. Qed.

Example declare_without_values :
  declare ∅ "Color" (Enum 5 []) = Ok ("type Color int32", None).
Proof. vm_compute; reflexivity. Qed.

(** Size 12, [a] at byte 0 and [b] at byte 8: four bytes of padding
    between them and none after. *)
Example declare_with_hole :
  declare ∅ "T" (Struct 1 12 [a; mkMember "b" (int32 2) 64 0])
  = Ok ("type T struct { a int32; _ [4]byte; b int32; }", None).
Proof. vm_compute; reflexivity. Qed.

Example declare_union :
  declare ∅ "U" (Union 1 4 [a; anonymous])
  = Ok ("type U struct { a int32; }", None).
Proof. vm_compute; reflexivity. Qed.

Example declare_anonymous :
  declare ∅ "T" (Struct 1 8 [a; anonymous])
  = Ok ("", Some (errInType 1 (errAnonymousField 1))).
Proof. vm_compute; reflexivity. Qed.

(** The first failure is the one reported. *)
Example declare_bitfield_first :
  declare ∅ "T" (Struct 1 8 [bits; anonymous])
  = Ok ("", Some (errInType 1 (errBitfield 0))).
Proof. vm_compute; reflexivity. Qed.

Example declare_section :
  declare ∅ "S" (Datasec 1 8 [x; y])
  = Ok ("type S struct { x int32; _ [4]byte; }", None).
Proof. vm_compute; reflexivity. Qed.

Example declare_pointer :
  declare ∅ "P" (Pointer 1 (int32 2))
  = Ok ("", Some (errTypeNotSupported 1 ErrNotSupported)).
Proof. vm_compute; reflexivity. Qed.

Example declare_without_name :
  declare ∅ "" (int32 2) = Ok ("", Some (errNeedName 2)).
Proof. vm_compute; reflexivity. Qed.

(** ** More statements at concrete inputs *)

Lemma TypeDeclaration_success_witness :
  TypeDeclaration maxTypeDepth Sizeof plain "T" (Struct 1 12 [a; far])
  = (Ok ("type T struct { a int32; _ [4]byte; b int32; }", None),
     written plain "type T struct { a int32; _ [4]byte; b int32; }")
  /\ "T" <> ""
  /\ (exists rest,
        "type T struct { a int32; _ [4]byte; b int32; }"
        = "type " ++ "T" ++ " " ++ rest)
  /\ w (written plain "type T struct { a int32; _ [4]byte; b int32; }")
     = "type T struct { a int32; _ [4]byte; b int32; }".
Proof.
  assert (H : TypeDeclaration maxTypeDepth Sizeof plain "T" (Struct 1 12 [a; far])
              = (Ok ("type T struct { a int32; _ [4]byte; b int32; }", None),
                 written plain "type T struct { a int32; _ [4]byte; b int32; }"))
    by concrete.
  split; [exact H|].
  exact (TypeDeclaration_success maxTypeDepth Sizeof plain "T" _ _ _ H).
Defined.

Lemma qualifiers_are_transparent_witness :
  (skipQualifiers maxTypeDepth (Const 7 Color) = inr Color /\ "Color" <> "")
  /\ writeTypeLit32 (Const 7 Color) 0 plain = writeTypeLit32 Color 0 plain
  /\ writeType maxTypeDepth Sizeof (Const 7 Color) 0 plain
     = writeType maxTypeDepth Sizeof Color 0 plain
  /\ TypeDeclaration maxTypeDepth Sizeof plain "Color" (Const 7 Color)
     = TypeDeclaration maxTypeDepth Sizeof plain "Color" Color.
Proof.
  assert (H : skipQualifiers maxTypeDepth (Const 7 Color) = inr Color
              /\ "Color" <> "") by (repeat split; concrete).
  split; [exact H|]. destruct H as [H1 H2].
  exact (qualifiers_are_transparent maxTypeDepth Sizeof plain "Color"
           (Const 7 Color) Color 0 H1 H2).
Defined.

Lemma named_type_is_a_reference_witness :
  (skipQualifiers maxTypeDepth (Const 7 Color) = inr Color
   /\ names naming !! addr Color = Some "Color" /\ "Color" <> "")
  /\ writeType maxTypeDepth Sizeof (Const 7 Color) 100 naming
     = (Ok tt, written naming "Color").
Proof.
  assert (H : skipQualifiers maxTypeDepth (Const 7 Color) = inr Color
              /\ names naming !! addr Color = Some "Color" /\ "Color" <> "")
    by (repeat split; concrete).
  split; [exact H|]. destruct H as (H1 & H2 & H3).
  exact (named_type_is_a_reference maxTypeDepth Sizeof naming (Const 7 Color)
           Color "Color" 100 H1 H2 H3).
Defined.

Lemma unsupported_kind_witness :
  (skipQualifiers maxTypeDepth pointer = inr pointer /\ rendered pointer = false
   /\ "P" <> "" /\ 0 <= 0 < maxTypeDepth)
  /\ writeTypeLit32 pointer 0 plain
     = (Err (errTypeNotSupported (addr pointer) ErrNotSupported), plain)
  /\ fst (TypeDeclaration maxTypeDepth Sizeof plain "P" pointer)
     = Ok ("", Some (errTypeNotSupported (addr pointer) ErrNotSupported))
  /\ Is (errTypeNotSupported (addr pointer) ErrNotSupported) NotSupported = true.
Proof.
  assert (H : skipQualifiers maxTypeDepth pointer = inr pointer
              /\ rendered pointer = false
              /\ "P" <> "" /\ 0 <= 0 < maxTypeDepth)
    by (repeat split; concrete).
  split; [exact H|]. destruct H as (H1 & H2 & H3 & H4).
  exact (unsupported_kind maxTypeDepth Sizeof plain "P" pointer pointer 0
           H1 H2 H3 H4).
Defined.

Lemma integer_declaration_witness :
  ("U" <> "" /\ 1 <= maxTypeDepth /\ 0 <= 8 < 2 ^ 29)
  /\ fst (TypeDeclaration maxTypeDepth Sizeof plain "U"
            (Int 1 8 (mkIntEncoding false false false)))
     = Ok ("type " ++ "U" ++ " "
             ++ intText 8 (mkIntEncoding false false false), None)
  /\ TypeDeclaration maxTypeDepth Sizeof plain "U"
       (Int 1 8 (mkIntEncoding false true false))
     = TypeDeclaration maxTypeDepth Sizeof plain "U"
         (Int 1 8 (mkIntEncoding false false false)).
Proof.
  assert (H : "U" <> "" /\ 1 <= maxTypeDepth /\ 0 <= 8 < 2 ^ 29)
    by (repeat split; concrete).
  split; [exact H|]. destruct H as (H1 & H2 & H3).
  exact (integer_declaration maxTypeDepth Sizeof plain "U" 1 8
           (mkIntEncoding false false false) true H1 H2 H3).
Defined.

Lemma structure_layout_witness :
  ((forall m, In m [a; far] ->
      Sizeof (Member.Type_ m) = inr 4
      /\ forall buffer,
           writeType maxTypeDepth Sizeof (Member.Type_ m) 1
             (mkGoFormatter buffer (names plain) (Identifier plain))
           = (Ok tt,
              mkGoFormatter (buffer ++ "int32") (names plain) (Identifier plain)))
   /\ laid_out (fun _ => 4) 0 [a; far]
   /\ end_of (fun _ => 4) 0 [a; far] <= 12 < 2 ^ 32)
  /\ writeStructLit maxTypeDepth Sizeof 12 [a; far] 1 plain
     = (Ok tt,
        written plain
          ("struct { "
             ++ fields (Identifier plain) (fun _ => 4) (fun _ => "int32") 0 [a; far]
             ++ padding (12 - end_of (fun _ => 4) 0 [a; far]) ++ "}")).
Proof.
  assert (H1 : forall m, In m [a; far] ->
            Sizeof (Member.Type_ m) = inr 4
            /\ forall buffer,
                 writeType maxTypeDepth Sizeof (Member.Type_ m) 1
                   (mkGoFormatter buffer (names plain) (Identifier plain))
                 = (Ok tt,
                    mkGoFormatter (buffer ++ "int32") (names plain)
                      (Identifier plain))).
  { intros m [<-|[<-|[]]]; (split; [reflexivity | intros buffer; reflexivity]). }
  assert (H2 : laid_out (fun _ => 4) 0 [a; far]).
  { cbn. repeat split; (lia || discriminate). }
  assert (H3 : end_of (fun _ => 4) 0 [a; far] <= 12 < 2 ^ 32)
    by (cbv; split; [discriminate | reflexivity]).
  split; [exact (conj H1 (conj H2 H3))|].
  exact (structure_layout maxTypeDepth Sizeof plain 12 [a; far] 1
           (fun _ => 4) (fun _ => "int32") H1 H2 H3).
Defined.

Lemma section_layout_witness :
  ((forall typ, In typ (global_types [x; y]) ->
      forall buffer,
        writeType maxTypeDepth Sizeof typ 1
          (mkGoFormatter buffer (names plain) (Identifier plain))
        = (Ok tt,
           mkGoFormatter (buffer ++ "int32") (names plain) (Identifier plain)))
   /\ section_laid_out 0 [x; y]
   /\ end_of_variables 0 [x; y] <= 8 < 2 ^ 32)
  /\ writeDatasecLit maxTypeDepth Sizeof 8 [x; y] 1 plain
     = (Ok tt,
        written plain
          ("struct { "
             ++ variables (Identifier plain) (fun _ => "int32") 0 [x; y]
             ++ padding (8 - end_of_variables 0 [x; y]) ++ "}")).
Proof.
  assert (H1 : forall typ, In typ (global_types [x; y]) ->
            forall buffer,
              writeType maxTypeDepth Sizeof typ 1
                (mkGoFormatter buffer (names plain) (Identifier plain))
              = (Ok tt,
                 mkGoFormatter (buffer ++ "int32") (names plain)
                   (Identifier plain))).
  { intros typ [<-|[]] buffer. reflexivity. }
  assert (H2 : section_laid_out 0 [x; y]).
  { cbn. repeat split; (lia || discriminate). }
  assert (H3 : end_of_variables 0 [x; y] <= 8 < 2 ^ 32)
    by (cbv; split; [discriminate | reflexivity]).
  split; [exact (conj H1 (conj H2 H3))|].
  exact (section_layout maxTypeDepth Sizeof plain 8 [x; y] 1
           (fun _ => "int32") H1 H2 H3).
Defined.





Lemma sound_graph_does_not_panic_witness :
  sound (Datasec 1 8 [x; y]) = true
  /\ (forall pn, fst (writeTypeLit32 (Datasec 1 8 [x; y]) 0 plain) <> Panic pn)
  /\ ((exists text,
         fst (TypeDeclaration maxTypeDepth Sizeof plain "S" (Datasec 1 8 [x; y]))
         = Ok (text, None))
      \/ exists err,
           fst (TypeDeclaration maxTypeDepth Sizeof plain "S"
                  (Datasec 1 8 [x; y]))
           = Ok ("", Some err)).
Proof.
  assert (H : sound (Datasec 1 8 [x; y]) = true) by reflexivity.
  split; [exact H|].
  exact (sound_graph_does_not_panic maxTypeDepth Sizeof plain "S"
           (Datasec 1 8 [x; y]) 0 H).
Defined.

Lemma shallower_is_the_same_witness :
  (0 <= 20
   /\ writeTypeLit32 (nest 3) 20 plain = (Ok tt, written plain (nest_text 3))
   /\ settled (Ok tt))
  /\ writeTypeLit32 (nest 3) 0 plain = (Ok tt, written plain (nest_text 3)).
Proof.
  assert (H : 0 <= 20
              /\ writeTypeLit32 (nest 3) 20 plain
                 = (Ok tt, written plain (nest_text 3))
              /\ settled (Ok tt))
    by (repeat split; concrete).
  split; [exact H|]. destruct H as (H1 & H2 & H3).
  exact (shallower_is_the_same maxTypeDepth Sizeof (nest 3) 20 0 plain
           (Ok tt) _ H1 H2 H3).
Defined.

Lemma arrays_of_arrays_witness :
  (Forall (fun dim : loc * Z => names plain !! fst dim = None) matrix
   /\ 0 <= 0 /\ 0 + Z.of_nat (length matrix) <= maxTypeDepth
   /\ forall buffer,
        writeType maxTypeDepth Sizeof (int32 2) (0 + Z.of_nat (length matrix))
          (mkGoFormatter buffer (names plain) (Identifier plain))
        = (Ok tt,
           mkGoFormatter (buffer ++ "int32") (names plain) (Identifier plain)))
  /\ writeType maxTypeDepth Sizeof (arrays matrix (int32 2)) 0 plain
     = (Ok tt, written plain (dimensions matrix ++ "int32")).
Proof.
  assert (H1 : Forall (fun dim : loc * Z => names plain !! fst dim = None) matrix)
    by (repeat constructor).
  assert (H2 : 0 <= 0) by lia.
  assert (H3 : 0 + Z.of_nat (length matrix) <= maxTypeDepth) by concrete.
  assert (H4 : forall buffer,
            writeType maxTypeDepth Sizeof (int32 2)
              (0 + Z.of_nat (length matrix))
              (mkGoFormatter buffer (names plain) (Identifier plain))
            = (Ok tt,
               mkGoFormatter (buffer ++ "int32") (names plain)
                 (Identifier plain)))
    by (intros buffer; reflexivity).
  split; [exact (conj H1 (conj H2 (conj H3 H4)))|].
  exact (arrays_of_arrays maxTypeDepth Sizeof plain matrix (int32 2) "int32" 0
           H1 H2 H3 H4).
Defined.

Lemma alias_of_a_named_type_witness :
  ("Paint" <> "" /\ 1 <= maxTypeDepth
   /\ skipQualifiers maxTypeDepth (Const 7 Color) = inr Color
   /\ names naming !! addr Color = Some "Color" /\ "Color" <> "")
  /\ TypeDeclaration maxTypeDepth Sizeof naming "Paint"
       (Typedef 12 (Const 7 Color))
     = (Ok ("type " ++ "Paint" ++ " " ++ "Color", None),
        written (Reset naming) ("type " ++ "Paint" ++ " " ++ "Color")).
Proof.
  assert (H : "Paint" <> "" /\ 1 <= maxTypeDepth
              /\ skipQualifiers maxTypeDepth (Const 7 Color) = inr Color
              /\ names naming !! addr Color = Some "Color" /\ "Color" <> "")
    by (repeat split; concrete).
  split; [exact H|]. destruct H as (H1 & H2 & H3 & H4 & H5).
  exact (alias_of_a_named_type maxTypeDepth Sizeof naming "Paint" 12
           (Const 7 Color) Color "Color" H1 H2 H3 H4 H5).
Defined.
